(** * HRML editor core: [web/js/core/Editor.js]

    A shallow embedding of the [Editor] class: the markup-insertion
    arithmetic of [insertMarkup], the preview pipeline of [updatePreview],
    the toolbar and shortcut dispatch of [bindEvents], and the
    [content-changed] path.

    JavaScript strings are sequences of code units; they are modelled as
    [string], one [ascii] per code unit.  Offsets are [Z], since
    [String.prototype.slice] gives a meaning to every integer argument.

    The development has two parts.  The first follows the methods with
    collaborators that throw [Error] objects and a textarea that stores the
    selection it is handed; it carries the arithmetic of insertion.  The
    second, [Page], runs the same methods on a page as a browser has it
    (any value may be thrown, the textarea clamps and moves its selection,
    an exception that leaves a listener does not stop the page), and the
    last lemma shows that the two agree where the first applies. *)

From Stdlib Require Import ZArith Lia Bool List.
From Stdlib Require Import Strings.Ascii Strings.String.
Import ListNotations.

Open Scope string_scope.
Open Scope Z_scope.

(** ** JavaScript string primitives *)

Module JS.

(** The line feed ["\n"]. *)
Definition LF : ascii := "010"%char.
Definition nl : string := String LF "".

(** The double quote, for HTML attribute values. *)
Definition dq : string := String "034"%char "".

(** [s.length]. *)
Definition len (s : string) : Z := Z.of_nat (String.length s).

(** Relative index of [slice]: a negative argument counts from the end,
    and everything saturates into [0, len]. *)
Definition rel_index (n k : Z) : Z :=
  if k <? 0 then Z.max (n + k) 0 else Z.min k n.

(** [s.slice(a, b)]. *)
Definition slice (s : string) (a b : Z) : string :=
  let from := rel_index (len s) a in
  let to := rel_index (len s) b in
  substring (Z.to_nat from) (Z.to_nat (Z.max (to - from) 0)) s.

(** [s.slice(a)]: the end defaults to [s.length]. *)
Definition slice_from (s : string) (a : Z) : string :=
  slice s a (len s).

(** [s[k]]: [None] stands for [undefined]. *)
Definition at_index (s : string) (k : Z) : option ascii :=
  if k <? 0 then None else get (Z.to_nat k) s.

(** [s[k] !== "\n"]. *)
Definition not_newline_at (s : string) (k : Z) : bool :=
  match at_index s k with
  | Some c => negb (Ascii.eqb c LF)
  | None => true
  end.

(** [s.endsWith(t)]. *)
Definition endsWith (s t : string) : bool :=
  let ls := String.length s in
  let lt := String.length t in
  (Nat.leb lt ls && String.eqb (substring (ls - lt) lt s) t)%bool.

(** Truthiness of a string: the empty string is falsy. *)
Definition truthy (s : string) : bool :=
  match s with
  | EmptyString => false
  | String _ _ => true
  end.

(** [s || d] on strings. *)
Definition or_else (s d : string) : string :=
  if truthy s then s else d.

End JS.

(** ** Regular expressions, by derivatives

    [prefix.match(re)] is used only for its truthiness, that is, for whether
    some match exists.  With a leading [^] a match exists exactly when a
    prefix of the subject belongs to the language of the pattern. *)

Module Regex.

Inductive re : Type :=
| Void : re
| Eps : re
| Chr : ascii -> re
| Cat : re -> re -> re
| Alt : re -> re -> re
| Star : re -> re.

(** [r+] *)
Definition Plus (r : re) : re := Cat r (Star r).

(** A literal run of characters. *)
Fixpoint Lit (s : string) : re :=
  match s with
  | EmptyString => Eps
  | String c s' => Cat (Chr c) (Lit s')
  end.

Fixpoint nullable (r : re) : bool :=
  match r with
  | Void => false
  | Eps => true
  | Chr _ => false
  | Cat r1 r2 => nullable r1 && nullable r2
  | Alt r1 r2 => nullable r1 || nullable r2
  | Star _ => true
  end.

Fixpoint deriv (c : ascii) (r : re) : re :=
  match r with
  | Void => Void
  | Eps => Void
  | Chr d => if Ascii.eqb c d then Eps else Void
  | Cat r1 r2 =>
      if nullable r1
      then Alt (Cat (deriv c r1) r2) (deriv c r2)
      else Cat (deriv c r1) r2
  | Alt r1 r2 => Alt (deriv c r1) (deriv c r2)
  | Star r1 => Cat (deriv c r1) (Star r1)
  end.

(** Whether some prefix of [s] is matched by [r]: the truthiness of
    [s.match(/^r/)]. *)
Fixpoint matches_at_start (r : re) (s : string) : bool :=
  nullable r ||
  match s with
  | EmptyString => false
  | String c s' => matches_at_start (deriv c r) s'
  end.

End Regex.

(** ** The pure part of [insertMarkup] *)

(** [/^(jf+|ja|jl|kl)/] *)
Definition blockPattern : Regex.re :=
  Regex.Alt (Regex.Cat (Regex.Chr "j") (Regex.Plus (Regex.Chr "f")))
    (Regex.Alt (Regex.Lit "ja") (Regex.Alt (Regex.Lit "jl") (Regex.Lit "kl"))).

(** [const isBlockLevel = prefix.match(/^(jf+|ja|jl|kl)/)], as a truth value. *)
Definition isBlockLevel (prefix : string) : bool :=
  Regex.matches_at_start blockPattern prefix.

(** [const prependNewline = ensureNewline && start > 0 &&
    text[start - 1] !== "\n" && isBlockLevel ? "\n" : ""] *)
Definition prependNewline (text : string) (start : Z) (prefix : string)
    (ensureNewline : bool) : string :=
  if (ensureNewline && (0 <? start) && JS.not_newline_at text (start - 1)
      && isBlockLevel prefix)%bool
  then JS.nl else "".

(** [const appendNewline = ensureNewline && !suffix.endsWith("\n") &&
    isBlockLevel ? "\n" : ""] *)
Definition appendNewline (prefix suffix : string) (ensureNewline : bool)
    : string :=
  if (ensureNewline && negb (JS.endsWith suffix JS.nl)
      && isBlockLevel prefix)%bool
  then JS.nl else "".

(** [const selectedText = text.slice(start, end)] *)
Definition selectedText (text : string) (start end_ : Z) : string :=
  JS.slice text start end_.

(** [const newText = text.slice(0, start) + prependNewline + prefix +
    (selectedText || "") + suffix + appendNewline + text.slice(end)] *)
Definition newText (text : string) (start end_ : Z) (prefix suffix : string)
    (ensureNewline : bool) : string :=
  JS.slice text 0 start
  ++ prependNewline text start prefix ensureNewline
  ++ prefix
  ++ JS.or_else (selectedText text start end_) ""
  ++ suffix
  ++ appendNewline prefix suffix ensureNewline
  ++ JS.slice_from text end_.

(** [const newPosition = start + prependNewline.length + prefix.length +
    (selectedText || "").length + (suffix ? suffix.length : 0)] *)
Definition newPosition (text : string) (start end_ : Z) (prefix suffix : string)
    (ensureNewline : bool) : Z :=
  start
  + JS.len (prependNewline text start prefix ensureNewline)
  + JS.len prefix
  + JS.len (JS.or_else (selectedText text start end_) "")
  + (if JS.truthy suffix then JS.len suffix else 0).

(** ** Exceptions and the state of the page *)

(** A thrown [Error] object; the [catch] clauses only read its [message]. *)
Record error : Type := mkError { message : string }.

Inductive outcome (A : Type) : Type :=
| Return : A -> outcome A
| Throw : error -> outcome A.
Arguments Return {A} _.
Arguments Throw {A} _.

(** Lines written through [console.warn], [console.error] and
    [console.log]. *)
Inductive console_entry : Type :=
| Warn : string -> console_entry
| ErrorLine : string -> error -> console_entry
| Log : string -> console_entry.

(** Everything the methods of [Editor] read or write.

    - [value], [selectionStart], [selectionEnd], [focused]: the textarea
      [this.editor];
    - [preview]: [this.preview.innerHTML];
    - [debugOutput]: [this.debugOutput.textContent], [None] when the element
      is missing;
    - [savedContent], [wordCountOf], [debugMode]: the [AppState] singleton;
    - [rendered]: the editor value of every render cycle so far, oldest
      first (a trace, written only by [updatePreview]);
    - [exportRequests]: how many times [exportToPDF] was started. *)
Record World : Type := mkWorld {
  value : string;
  selectionStart : Z;
  selectionEnd : Z;
  focused : bool;
  preview : string;
  debugOutput : option string;
  console : list console_entry;
  savedContent : option string;
  wordCountOf : option string;
  debugMode : bool;
  rendered : list string;
  exportRequests : nat
}.

Definition with_value (v : string) (w : World) : World :=
  mkWorld v (selectionStart w) (selectionEnd w) (focused w) (preview w)
    (debugOutput w) (console w) (savedContent w) (wordCountOf w)
    (debugMode w) (rendered w) (exportRequests w).

Definition with_selection (s e : Z) (w : World) : World :=
  mkWorld (value w) s e (focused w) (preview w)
    (debugOutput w) (console w) (savedContent w) (wordCountOf w)
    (debugMode w) (rendered w) (exportRequests w).

Definition with_focused (b : bool) (w : World) : World :=
  mkWorld (value w) (selectionStart w) (selectionEnd w) b (preview w)
    (debugOutput w) (console w) (savedContent w) (wordCountOf w)
    (debugMode w) (rendered w) (exportRequests w).

Definition with_preview (h : string) (w : World) : World :=
  mkWorld (value w) (selectionStart w) (selectionEnd w) (focused w) h
    (debugOutput w) (console w) (savedContent w) (wordCountOf w)
    (debugMode w) (rendered w) (exportRequests w).

Definition with_debugOutput (d : option string) (w : World) : World :=
  mkWorld (value w) (selectionStart w) (selectionEnd w) (focused w) (preview w)
    d (console w) (savedContent w) (wordCountOf w)
    (debugMode w) (rendered w) (exportRequests w).

Definition with_console (c : list console_entry) (w : World) : World :=
  mkWorld (value w) (selectionStart w) (selectionEnd w) (focused w) (preview w)
    (debugOutput w) c (savedContent w) (wordCountOf w)
    (debugMode w) (rendered w) (exportRequests w).

Definition with_savedContent (c : option string) (w : World) : World :=
  mkWorld (value w) (selectionStart w) (selectionEnd w) (focused w) (preview w)
    (debugOutput w) (console w) c (wordCountOf w)
    (debugMode w) (rendered w) (exportRequests w).

Definition with_wordCountOf (c : option string) (w : World) : World :=
  mkWorld (value w) (selectionStart w) (selectionEnd w) (focused w) (preview w)
    (debugOutput w) (console w) (savedContent w) c
    (debugMode w) (rendered w) (exportRequests w).

Definition with_rendered (r : list string) (w : World) : World :=
  mkWorld (value w) (selectionStart w) (selectionEnd w) (focused w) (preview w)
    (debugOutput w) (console w) (savedContent w) (wordCountOf w)
    (debugMode w) r (exportRequests w).

Definition with_exportRequests (n : nat) (w : World) : World :=
  mkWorld (value w) (selectionStart w) (selectionEnd w) (focused w) (preview w)
    (debugOutput w) (console w) (savedContent w) (wordCountOf w)
    (debugMode w) (rendered w) n.

(** ** A state-and-exception monad

    A computation runs on a [World], and either returns or throws; what it
    wrote before throwing stays written. *)

Definition M (A : Type) : Type := World -> outcome A * World.

Definition ret {A : Type} (a : A) : M A := fun w => (Return a, w).

Definition bind {A B : Type} (m : M A) (k : A -> M B) : M B :=
  fun w =>
    match m w with
    | (Return a, w') => k a w'
    | (Throw e, w') => (Throw e, w')
    end.

(** [try { body } catch (error) { handler }] *)
Definition try_catch {A : Type} (body : M A) (handler : error -> M A) : M A :=
  fun w =>
    match body w with
    | (Return a, w') => (Return a, w')
    | (Throw e, w') => handler e w'
    end.

(** The result of a call into a collaborator. *)
Definition call {A : Type} (r : outcome A) : M A := fun w => (r, w).

Definition gets {A : Type} (f : World -> A) : M A := fun w => (Return (f w), w).

Definition modify (f : World -> World) : M unit := fun w => (Return tt, f w).

Definition exec {A : Type} (m : M A) (w : World) : World := snd (m w).

Definition result {A : Type} (m : M A) (w : World) : outcome A := fst (m w).

Declare Scope editor_scope.
Delimit Scope editor_scope with editor.
Notation "x <- m ;; k" := (bind m (fun x => k))
  (at level 61, m at next level, right associativity) : editor_scope.
Notation "m ;; k" := (bind m (fun _ => k))
  (at level 61, right associativity) : editor_scope.
Open Scope editor_scope.

(** Strict equality of two strings, as [switch] and [===] compare them. *)
Notation "a === b" := (String.eqb a b) (at level 70, no associativity)
  : editor_scope.

(** ** Collaborators

    [sanitizeInput] (utils/helpers.js), [ParserManager.parseToHtml]
    (core/Parser.js) and [hljs.highlightAll] live outside this file; each may
    return or throw an object with a message, such as any [Error].  What
    happens when something else is thrown is told by [Page] below.
    [stringify] stands for [JSON.stringify(details, null, 2)] on an object
    whose fields are strings. *)
Class Collaborators : Type := {
  sanitizeInput : string -> outcome string;
  parseToHtml : string -> outcome string;
  highlightAll : outcome unit;
  stringify : list (string * string) -> string
}.

(** Modelled from the spec: [AppState.saveContent] is the synchronous
    [Persistence.save(content)] of the external interfaces; it keeps the last
    content it was given. *)
Definition saveContent (content : string) : M unit :=
  modify (with_savedContent (Some content)).

(** Modelled from the spec: [AppState.updateWordCount] is
    [Persistence.updateWordCount(content)]; only the content it was last
    given is kept. *)
Definition updateWordCount (content : string) : M unit :=
  modify (with_wordCountOf (Some content)).

(** [this.editor.setSelectionRange(s, e)]: the textarea stores the range it
    is given.  In this part the range handed over lies inside the text
    whenever the selection read did; the clamping a textarea does on any
    other range is in [Page.setSelectionRange]. *)
Definition setSelectionRange (s e : Z) : M unit :=
  modify (with_selection s e).

Definition focus : M unit := modify (with_focused true).

Definition console_warn (line : string) : M unit :=
  modify (fun w => with_console (console w ++ [Warn line]) w).

Definition console_error (line : string) (e : error) : M unit :=
  modify (fun w => with_console (console w ++ [ErrorLine line e]) w).

Definition console_log (line : string) : M unit :=
  modify (fun w => with_console (console w ++ [Log line]) w).

(** [`<pre class="error">Error: ${error.message}</pre>`] *)
Definition errorBlock (msg : string) : string :=
  "<pre class=" ++ JS.dq ++ "error" ++ JS.dq ++ ">Error: " ++ msg ++ "</pre>".

(** The two payloads the preview can show, in the words of the
    specification. *)
Inductive RenderResult : Type :=
| Rendered : string -> RenderResult
| Failed : string -> RenderResult.

(** What the preview element holds for a render result. *)
Definition display (r : RenderResult) : string :=
  match r with
  | Rendered html => html
  | Failed msg => errorBlock msg
  end.

(** [exportToPDF] is asynchronous and touches neither the textarea nor the
    preview; only the fact that it was started is recorded. *)
Definition exportToPDF : M unit :=
  modify (fun w => with_exportRequests (S (exportRequests w)) w).

(** What the page can be told to do from outside.  [Elapse] lets time
    pass. *)
Inductive dom_event : Type :=
| Input : string -> dom_event
| Blur : dom_event
| Click : option string -> dom_event
| CtrlKey : string -> dom_event
| BeforeUnload : dom_event
| Elapse : Z -> dom_event.

Section Editor.

Context `{Collaborators}.

Definition logDebug (msg : string) (details : option (list (string * string)))
    : M unit :=
  dbg <- gets debugMode ;;
  if negb dbg then ret tt
  else
    console_log msg ;;
    out <- gets debugOutput ;;
    match out with
    | None => ret tt
    | Some textContent =>
        let logEntry :=
          match details with
          | Some d => msg ++ JS.nl ++ stringify d
          | None => msg
          end in
        modify (with_debugOutput
                  (Some (textContent ++ logEntry ++ JS.nl ++ JS.nl)))
    end.

Definition updatePreview : M unit :=
  modify (fun w => with_rendered (rendered w ++ [value w]) w) ;;
  try_catch
    (text <- gets value ;;
     input <- call (sanitizeInput text) ;;
     html <- call (parseToHtml input) ;;
     modify (with_preview html) ;;
     call highlightAll ;;
     logDebug "Preview updated" (Some [("input", input); ("html", html)]))
    (fun error =>
       console_error "Parser error:" error ;;
       modify (with_preview (errorBlock (message error))) ;;
       logDebug "Parser error" (Some [("error", message error)])).

Definition insertMarkup (prefix suffix : string) (ensureNewline : bool)
    : M unit :=
  start <- gets selectionStart ;;
  end_ <- gets selectionEnd ;;
  text <- gets value ;;
  let new := newText text start end_ prefix suffix ensureNewline in
  modify (with_value new) ;;
  saveContent new ;;
  updatePreview ;;
  let position := newPosition text start end_ prefix suffix ensureNewline in
  setSelectionRange position position ;;
  focus.

Definition insertHorizontalRule : M unit := insertMarkup "js" JS.nl true.
Definition insertLink : M unit :=
  insertMarkup "jg [text] gh [url] hg" JS.nl true.
Definition insertImage : M unit :=
  insertMarkup "jh [alt] gh [url] hj" JS.nl true.
Definition insertCodeBlock : M unit :=
  insertMarkup ("jkd python" ++ JS.nl) (JS.nl ++ "dkj") true.
Definition insertQuote : M unit := insertMarkup "kl " JS.nl true.
Definition insertNestedQuote : M unit := insertMarkup "kll " JS.nl true.

(** The handler registered for ["content-changed"]. *)
Definition on_content_changed (content : string) : M unit :=
  saveContent content ;;
  updateWordCount content ;;
  updatePreview.

(** Modelled from the spec: [events.emit] of utils/events.js, which is not
    among the sources.  The specification has the save happen synchronously
    and immediately on edit, so the payload is handed at once to the handler
    the constructor registered for the event name with [events.on].  The
    handlers of the export events only move the export indicator and post
    notifications; they are left out. *)
Definition emit (name payload : string) : M unit :=
  if name === "content-changed" then on_content_changed payload
  else if name === "toolbar-hr" then insertHorizontalRule
  else if name === "toolbar-link" then insertLink
  else if name === "toolbar-image" then insertImage
  else if name === "toolbar-code" then insertCodeBlock
  else if name === "toolbar-quote" then insertQuote
  else if name === "toolbar-nested-quote" then insertNestedQuote
  else ret tt.

(** The [switch] of the toolbar click handler; [None] is a button without a
    [data-action] attribute, whose [action] is [undefined]. *)
Definition toolbar_click (action : option string) : M unit :=
  match action with
  | None => console_warn ("Unknown toolbar action: " ++ "undefined")
  | Some a =>
      if a === "h1" then insertMarkup "jf " JS.nl true
      else if a === "h2" then insertMarkup "jff " JS.nl true
      else if a === "h3" then insertMarkup "jfff " JS.nl true
      else if a === "bold" then insertMarkup "js " " sj" true
      else if a === "italic" then insertMarkup "jd " " dj" true
      else if a === "underline" then insertMarkup "ju " " uj" true
      else if a === "ulist" then insertMarkup "ja " JS.nl true
      else if a === "olist" then insertMarkup "jl " JS.nl true
      else if a === "link" then insertLink
      else if a === "image" then insertImage
      else if a === "code" then insertCodeBlock
      else if a === "quote" then insertQuote
      else if a === "nested-quote" then insertNestedQuote
      else if a === "hr" then insertHorizontalRule
      else if a === "export-pdf" then exportToPDF
      else console_warn ("Unknown toolbar action: " ++ a)
  end.

(** The table given to [events.bindShortcuts]; every entry has
    [ctrl: true], so [key] is the key pressed together with Ctrl. *)
Definition shortcut (key : string) : M unit :=
  if key === "b" then insertMarkup "js" "sj" true
  else if key === "i" then insertMarkup "jd" "dj" true
  else if key === "u" then insertMarkup "ju" "uj" true
  else if key === "k" then insertLink
  else if key === "q" then insertQuote
  else if key === "s" then (text <- gets value ;; saveContent text)
  else if key === "e" then exportToPDF
  else ret tt.

(** The listeners installed by [bindEvents].  The browser has already put
    the typed text into the textarea when ["input"] fires, and the handler
    emits ["content-changed"] with [e.target.value].  No listener of this
    class starts a timer, so nothing is pending when time passes. *)
Definition dispatch (ev : dom_event) : M unit :=
  match ev with
  | Input typed =>
      modify (with_value typed) ;;
      text <- gets value ;;
      emit "content-changed" text
  | Blur => text <- gets value ;; saveContent text
  | Click action => toolbar_click action
  | CtrlKey key => shortcut key
  | BeforeUnload => text <- gets value ;; saveContent text
  | Elapse _ => ret tt
  end.

Fixpoint run (evs : list dom_event) : M unit :=
  match evs with
  | [] => ret tt
  | ev :: rest => dispatch ev ;; run rest
  end.

End Editor.

(** The action tags the toolbar [switch] has a [case] for. *)
Definition knownActions : list string :=
  ["h1"; "h2"; "h3"; "bold"; "italic"; "underline"; "ulist"; "olist";
   "link"; "image"; "code"; "quote"; "nested-quote"; "hr"; "export-pdf"].

(** The selection a textarea reports: [0 <= start <= end <= length]. *)
Definition valid_selection (text : string) (start end_ : Z) : Prop :=
  0 <= start /\ start <= end_ /\ end_ <= JS.len text.

(** A page with the given text and selection and nothing else yet. *)
Definition page (text : string) (start end_ : Z) : World :=
  mkWorld text start end_ false "" None [] None None false [] 0.

(** Sample collaborators: an identity sanitizer, a transform that wraps its
    input in a paragraph, and a working highlighter. *)
Definition plain : Collaborators := {|
  sanitizeInput := fun s => Return s;
  parseToHtml := fun s => Return ("<p>" ++ s ++ "</p>");
  highlightAll := Return tt;
  stringify := fun fields => concat ", " (map snd fields)
|}.

(** [w'] differs from [w] at most in what was logged: the console and the
    debug pane. *)
Definition logs_only (w w' : World) : Prop :=
  value w' = value w /\ selectionStart w' = selectionStart w
  /\ selectionEnd w' = selectionEnd w /\ focused w' = focused w
  /\ preview w' = preview w /\ savedContent w' = savedContent w
  /\ wordCountOf w' = wordCountOf w /\ debugMode w' = debugMode w
  /\ rendered w' = rendered w /\ exportRequests w' = exportRequests w.

(** [w'] is [w] after one more render cycle: the document, the selection and
    what was persisted are as before, and the trace has one more entry. *)
Definition rendered_once (w w' : World) : Prop :=
  value w' = value w /\ selectionStart w' = selectionStart w
  /\ selectionEnd w' = selectionEnd w /\ focused w' = focused w
  /\ savedContent w' = savedContent w
  /\ wordCountOf w' = wordCountOf w /\ debugMode w' = debugMode w
  /\ rendered w' = (rendered w ++ [value w])%list
  /\ exportRequests w' = exportRequests w.

(** What [insertMarkup(prefix, suffix, ensureNewline)] leaves behind when
    started in [w]: the assembled text in the textarea and in the store, a
    collapsed selection at the computed position, the focus on the textarea,
    and one more render cycle, of the new text. *)
Definition inserted (prefix suffix : string) (ensureNewline : bool)
    (w w' : World) : Prop :=
  let new :=
    newText (value w) (selectionStart w) (selectionEnd w)
      prefix suffix ensureNewline in
  let position :=
    newPosition (value w) (selectionStart w) (selectionEnd w)
      prefix suffix ensureNewline in
  value w' = new
  /\ selectionStart w' = position /\ selectionEnd w' = position
  /\ focused w' = true
  /\ savedContent w' = Some new
  /\ wordCountOf w' = wordCountOf w
  /\ rendered w' = (rendered w ++ [new])%list
  /\ exportRequests w' = exportRequests w.

(** The tag printed for an action: [undefined] prints as its name. *)
Definition action_tag (action : option string) : string :=
  match action with
  | Some a => a
  | None => "undefined"
  end.

(** An action the toolbar [switch] has no [case] for. *)
Definition unknown_action (action : option string) : Prop :=
  match action with
  | Some a => ~ In a knownActions
  | None => True
  end.

(** One step through the toolbar [switch] for a tag no [case] names. *)
Ltac unknown_case Hun :=
  match goal with
  | |- context [String.eqb ?a ?k] =>
      destruct (String.eqb_spec a k) as [->|_];
      [exfalso; apply Hun; cbn; tauto|]
  end.

(** ** Freshness of the preview, and the export

    The conditions the methods keep. *)

Section Loading.

Context `{Collaborators}.

(** What one pass of the [try] block of [updatePreview] over [text] comes
    to: the HTML when the sanitizer, the transform and the highlighter all
    return, and otherwise the message of the first thing thrown. *)
Definition renderResult (text : string) : RenderResult :=
  match sanitizeInput text with
  | Throw e => Failed (message e)
  | Return input =>
      match parseToHtml input with
      | Throw e => Failed (message e)
      | Return html =>
          match highlightAll with
          | Throw e => Failed (message e)
          | Return _ => Rendered html
          end
      end
  end.

(** The preview shows the text that is in the textarea. *)
Definition fresh (w : World) : Prop :=
  preview w = display (renderResult (value w)).

End Loading.

(** The store holds the text that is in the textarea. *)
Definition synced (w : World) : Prop :=
  savedContent w = Some (value w).

(** The debug pane only ever gets longer, and it cannot appear or vanish. *)
Definition pane_extends (before after : option string) : Prop :=
  match before, after with
  | Some t, Some t' => exists tail, t' = t ++ tail
  | None, None => True
  | _, _ => False
  end.

(** The debug flag stays as it is, the pane is only appended to, and with
    the flag off the pane is not written at all. *)
Definition debug_grows (w w' : World) : Prop :=
  debugMode w' = debugMode w
  /\ pane_extends (debugOutput w) (debugOutput w')
  /\ (debugMode w = false -> debugOutput w' = debugOutput w).

(** The selection of a page is one a textarea can report. *)
Definition well_selected (w : World) : Prop :=
  valid_selection (value w) (selectionStart w) (selectionEnd w).

(** [exportToPDF], with what it shows to the user.  It is an [async]
    function with one [await]: it runs up to the call of
    [exporter.toPDF(this.preview)], and runs on when that promise has
    settled.  Exports are not serialised, so between the two halves of one
    export the halves of others may run. *)
Module PdfExport.

(** - [indicator]: [style.display] of [#exportIndicator], [None] when the
      element is missing;
    - [notifications]: the calls of [state.showNotification], with the
      level where one is given;
    - [errors]: the lines of [console.error]. *)
Record View : Type := mkView {
  indicator : option string;
  notifications : list (string * option string);
  errors : list (string * error)
}.

(** [if (indicator) indicator.style.display = d] *)
Definition set_display (d : string) (v : View) : View :=
  mkView (option_map (fun _ => d) (indicator v)) (notifications v) (errors v).

Definition showNotification (text : string) (level : option string) (v : View)
    : View :=
  mkView (indicator v) (notifications v ++ [(text, level)]) (errors v).

Definition console_error (line : string) (e : error) (v : View) : View :=
  mkView (indicator v) (notifications v) (errors v ++ [(line, e)]).

(** Up to the [await]. *)
Definition begin (v : View) : View := set_display "flex" v.

(** From the [await] on: the rest of [try], or [catch], and then
    [finally]. *)
Definition settle (toPDF : outcome unit) (v : View) : View :=
  let settled :=
    match toPDF with
    | Return _ => showNotification "Export completed successfully" None v
    | Throw e =>
        showNotification "Failed to export PDF" (Some "error")
          (console_error "Export failed:" e v)
    end in
  set_display "none" settled.

(** One export with nothing in between. *)
Definition exportToPDF (toPDF : outcome unit) (v : View) : View :=
  settle toPDF (begin v).

(** The halves of any number of exports, in the order they run. *)
Inductive half : Type :=
| Begin : half
| Settle : outcome unit -> half.

Definition run_half (h : half) (v : View) : View :=
  match h with
  | Begin => begin v
  | Settle toPDF => settle toPDF v
  end.

Definition run (hs : list half) (v : View) : View :=
  fold_left (fun v h => run_half h v) hs v.

(** The notification an export posts when it settles. *)
Definition notice (toPDF : outcome unit) : string * option string :=
  match toPDF with
  | Return _ => ("Export completed successfully", None)
  | Throw _ => ("Failed to export PDF", Some "error")
  end.

(** The notifications of the halves that settle, in order. *)
Fixpoint notices (hs : list half) : list (string * option string) :=
  match hs with
  | [] => []
  | Begin :: rest => notices rest
  | Settle toPDF :: rest => notice toPDF :: notices rest
  end.

End PdfExport.


(** ** The editor on a page

    Above, a collaborator throws an [Error] object and the textarea stores
    whatever selection it is handed.  Here the same methods run on a page as
    a browser has it: a collaborator may throw any value, [null] and
    [undefined] included; the textarea keeps its selection inside its text;
    and an exception that leaves a handler is reported and the page goes
    on. *)

Module Page.

(** What [catch (error)] may bind: [null], [undefined], an object with a
    [message] (any [Error]), or a value whose [message] is [undefined] (a
    thrown string, number or plain object). *)
Inductive thrown : Type :=
| Null : thrown
| Undefined : thrown
| Object : error -> thrown
| Messageless : thrown.

Definition nullish (t : thrown) : bool :=
  match t with
  | Null | Undefined => true
  | Object _ | Messageless => false
  end.

(** The [TypeError] of reading [.message] off [null] or [undefined]; the
    wording of its message is the engine's (here V8's). *)
Definition TypeError (t : thrown) : thrown :=
  Object
    (mkError
       ("Cannot read properties of "
        ++ match t with Null => "null" | _ => "undefined" end
        ++ " (reading 'message')")).

Inductive completion (A : Type) : Type :=
| Normal : A -> completion A
| Abrupt : thrown -> completion A.
Arguments Normal {A} _.
Arguments Abrupt {A} _.

Inductive console_line : Type :=
| Warn : string -> console_line
| Error : string -> thrown -> console_line
| Log : string -> console_line.

(** The page: the textarea, the preview, the debug pane, the console, the
    [AppState] singleton, the exports started, and the exceptions that left
    a handler, oldest first. *)
Record state : Type := mkState {
  value : string;
  selectionStart : Z;
  selectionEnd : Z;
  focused : bool;
  preview : string;
  debugOutput : option string;
  console : list console_line;
  savedContent : option string;
  wordCountOf : option string;
  debugMode : bool;
  exportRequests : nat;
  uncaught : list thrown
}.

Definition with_text (v : string) (s e : Z) (b : state) : state :=
  mkState v s e (focused b) (preview b) (debugOutput b) (console b)
    (savedContent b) (wordCountOf b) (debugMode b) (exportRequests b)
    (uncaught b).

Definition with_focused (f : bool) (b : state) : state :=
  mkState (value b) (selectionStart b) (selectionEnd b) f (preview b)
    (debugOutput b) (console b) (savedContent b) (wordCountOf b)
    (debugMode b) (exportRequests b) (uncaught b).

Definition with_preview (h : string) (b : state) : state :=
  mkState (value b) (selectionStart b) (selectionEnd b) (focused b) h
    (debugOutput b) (console b) (savedContent b) (wordCountOf b)
    (debugMode b) (exportRequests b) (uncaught b).

Definition with_debugOutput (d : option string) (b : state) : state :=
  mkState (value b) (selectionStart b) (selectionEnd b) (focused b)
    (preview b) d (console b) (savedContent b) (wordCountOf b)
    (debugMode b) (exportRequests b) (uncaught b).

Definition with_console (c : list console_line) (b : state) : state :=
  mkState (value b) (selectionStart b) (selectionEnd b) (focused b)
    (preview b) (debugOutput b) c (savedContent b) (wordCountOf b)
    (debugMode b) (exportRequests b) (uncaught b).

Definition with_savedContent (c : option string) (b : state) : state :=
  mkState (value b) (selectionStart b) (selectionEnd b) (focused b)
    (preview b) (debugOutput b) (console b) c (wordCountOf b)
    (debugMode b) (exportRequests b) (uncaught b).

Definition with_wordCountOf (c : option string) (b : state) : state :=
  mkState (value b) (selectionStart b) (selectionEnd b) (focused b)
    (preview b) (debugOutput b) (console b) (savedContent b) c
    (debugMode b) (exportRequests b) (uncaught b).

Definition with_exportRequests (n : nat) (b : state) : state :=
  mkState (value b) (selectionStart b) (selectionEnd b) (focused b)
    (preview b) (debugOutput b) (console b) (savedContent b) (wordCountOf b)
    (debugMode b) n (uncaught b).

Definition with_uncaught (u : list thrown) (b : state) : state :=
  mkState (value b) (selectionStart b) (selectionEnd b) (focused b)
    (preview b) (debugOutput b) (console b) (savedContent b) (wordCountOf b)
    (debugMode b) (exportRequests b) u.

(** *** Statements that return or throw *)

Definition PM (A : Type) : Type := state -> completion A * state.

Definition ret {A : Type} (a : A) : PM A := fun b => (Normal a, b).

Definition throw {A : Type} (t : thrown) : PM A := fun b => (Abrupt t, b).

Definition bind {A B : Type} (m : PM A) (k : A -> PM B) : PM B :=
  fun b =>
    match m b with
    | (Normal a, b') => k a b'
    | (Abrupt t, b') => (Abrupt t, b')
    end.

(** [try { body } catch (error) { handler }] *)
Definition try_catch {A : Type} (body : PM A) (handler : thrown -> PM A)
    : PM A :=
  fun b =>
    match body b with
    | (Normal a, b') => (Normal a, b')
    | (Abrupt t, b') => handler t b'
    end.

Definition call {A : Type} (r : completion A) : PM A := fun b => (r, b).

Definition gets {A : Type} (f : state -> A) : PM A :=
  fun b => (Normal (f b), b).

Definition modify (f : state -> state) : PM unit := fun b => (Normal tt, f b).

Definition exec {A : Type} (m : PM A) (b : state) : state := snd (m b).

Declare Scope page_scope.
Delimit Scope page_scope with page.
Notation "x <- m ;; k" := (bind m (fun x => k))
  (at level 61, m at next level, right associativity) : page_scope.
Notation "m ;; k" := (bind m (fun _ => k))
  (at level 61, right associativity) : page_scope.
Local Open Scope page_scope.

(** *** The textarea *)

(** An [unsigned long] argument: the integer modulo 2^32. *)
Definition to_index (k : Z) : Z := k mod 2 ^ 32.

(** The range the textarea stores when asked for [s, e]: an offset beyond
    the text points at its end, and when the end is not after the start both
    are placed at the end. *)
Definition clamp (text : string) (s e : Z) : Z * Z :=
  let e' := Z.min (to_index e) (JS.len text) in
  let s' := Z.min (to_index s) (JS.len text) in
  (if e' <=? s' then e' else s', e').

(** [this.editor.setSelectionRange(s, e)] *)
Definition setSelectionRange (s e : Z) : PM unit :=
  modify (fun b =>
            with_text (value b) (fst (clamp (value b) s e))
              (snd (clamp (value b) s e)) b).

(** [this.editor.value = v]: when the text changes, the caret goes to its
    end. *)
Definition set_value (v : string) : PM unit :=
  modify (fun b =>
            if value b === v then b else with_text v (JS.len v) (JS.len v) b).

Definition focus : PM unit := modify (with_focused true).

(** *** The collaborators of a page *)

Class Services : Type := {
  sanitizeInput : string -> completion string;
  parseToHtml : string -> completion string;
  highlightAll : completion unit;
  stringify : list (string * string) -> string
}.

(** Modelled from the spec: [AppState.saveContent] is the synchronous
    [Persistence.save(content)]; it keeps the last content it was given. *)
Definition saveContent (content : string) : PM unit :=
  modify (with_savedContent (Some content)).

(** Modelled from the spec: [AppState.updateWordCount] is
    [Persistence.updateWordCount(content)]. *)
Definition updateWordCount (content : string) : PM unit :=
  modify (with_wordCountOf (Some content)).

Definition console_warn (line : string) : PM unit :=
  modify (fun b => with_console (console b ++ [Warn line]) b).

Definition console_error (line : string) (t : thrown) : PM unit :=
  modify (fun b => with_console (console b ++ [Error line t]) b).

Definition console_log (line : string) : PM unit :=
  modify (fun b => with_console (console b ++ [Log line]) b).

(** [error.message]: a [TypeError] on [null] and [undefined], and otherwise
    the message, [None] standing for [undefined]. *)
Definition read_message (error : thrown) : PM (option string) :=
  match error with
  | Null | Undefined => throw (TypeError error)
  | Object e => ret (Some (message e))
  | Messageless => ret None
  end.

(** A message inside a template literal: [undefined] prints as its name. *)
Definition interpolate (msg : option string) : string :=
  match msg with
  | Some m => m
  | None => "undefined"
  end.

(** The fields [JSON.stringify] sees in [{ error: error.message }]: a field
    whose value is [undefined] is left out. *)
Definition error_details (msg : option string) : list (string * string) :=
  match msg with
  | Some m => [("error", m)]
  | None => []
  end.

Definition exportToPDF : PM unit :=
  modify (fun b => with_exportRequests (S (exportRequests b)) b).

(** What reaches the page from outside: the user's edits (the new text and
    where the edit left the caret), selections made with mouse or keys, and
    the events of the first part. *)
Inductive dom_event : Type :=
| Typed : string -> Z -> dom_event
| Select : Z -> Z -> dom_event
| Blur : dom_event
| Click : option string -> dom_event
| CtrlKey : string -> dom_event
| BeforeUnload : dom_event
| Elapse : Z -> dom_event.

Section Methods.

Context `{Services}.

Definition logDebug (msg : string) (details : option (list (string * string)))
    : PM unit :=
  dbg <- gets debugMode ;;
  if negb dbg then ret tt
  else
    console_log msg ;;
    out <- gets debugOutput ;;
    match out with
    | None => ret tt
    | Some textContent =>
        let logEntry :=
          match details with
          | Some d => msg ++ JS.nl ++ stringify d
          | None => msg
          end in
        modify (with_debugOutput
                  (Some (textContent ++ logEntry ++ JS.nl ++ JS.nl)))
    end.

Definition updatePreview : PM unit :=
  try_catch
    (text <- gets value ;;
     input <- call (sanitizeInput text) ;;
     html <- call (parseToHtml input) ;;
     modify (with_preview html) ;;
     call highlightAll ;;
     logDebug "Preview updated" (Some [("input", input); ("html", html)]))
    (fun error =>
       console_error "Parser error:" error ;;
       shown <- read_message error ;;
       modify (with_preview (errorBlock (interpolate shown))) ;;
       logged <- read_message error ;;
       logDebug "Parser error" (Some (error_details logged))).

Definition insertMarkup (prefix suffix : string) (ensureNewline : bool)
    : PM unit :=
  start <- gets selectionStart ;;
  end_ <- gets selectionEnd ;;
  text <- gets value ;;
  let new := newText text start end_ prefix suffix ensureNewline in
  set_value new ;;
  saveContent new ;;
  updatePreview ;;
  let position := newPosition text start end_ prefix suffix ensureNewline in
  setSelectionRange position position ;;
  focus.

Definition insertHorizontalRule : PM unit := insertMarkup "js" JS.nl true.
Definition insertLink : PM unit :=
  insertMarkup "jg [text] gh [url] hg" JS.nl true.
Definition insertImage : PM unit :=
  insertMarkup "jh [alt] gh [url] hj" JS.nl true.
Definition insertCodeBlock : PM unit :=
  insertMarkup ("jkd python" ++ JS.nl) (JS.nl ++ "dkj") true.
Definition insertQuote : PM unit := insertMarkup "kl " JS.nl true.
Definition insertNestedQuote : PM unit := insertMarkup "kll " JS.nl true.


(** The handler the constructor registers for ["content-changed"]. *)
Definition on_content_changed (content : string) : PM unit :=
  saveContent content ;;
  updateWordCount content ;;
  updatePreview.

Definition toolbar_click (action : option string) : PM unit :=
  match action with
  | None => console_warn ("Unknown toolbar action: " ++ "undefined")
  | Some a =>
      if a === "h1" then insertMarkup "jf " JS.nl true
      else if a === "h2" then insertMarkup "jff " JS.nl true
      else if a === "h3" then insertMarkup "jfff " JS.nl true
      else if a === "bold" then insertMarkup "js " " sj" true
      else if a === "italic" then insertMarkup "jd " " dj" true
      else if a === "underline" then insertMarkup "ju " " uj" true
      else if a === "ulist" then insertMarkup "ja " JS.nl true
      else if a === "olist" then insertMarkup "jl " JS.nl true
      else if a === "link" then insertLink
      else if a === "image" then insertImage
      else if a === "code" then insertCodeBlock
      else if a === "quote" then insertQuote
      else if a === "nested-quote" then insertNestedQuote
      else if a === "hr" then insertHorizontalRule
      else if a === "export-pdf" then exportToPDF
      else console_warn ("Unknown toolbar action: " ++ a)
  end.

Definition shortcut (key : string) : PM unit :=
  if key === "b" then insertMarkup "js" "sj" true
  else if key === "i" then insertMarkup "jd" "dj" true
  else if key === "u" then insertMarkup "ju" "uj" true
  else if key === "k" then insertLink
  else if key === "q" then insertQuote
  else if key === "s" then (text <- gets value ;; saveContent text)
  else if key === "e" then exportToPDF
  else ret tt.

(** The listeners of [bindEvents].  On ["input"] the browser has put the
    new text into the textarea and the caret where the edit ended; the
    listener emits ["content-changed"] with [e.target.value], which reaches
    the handler above.  A selection made by the user runs no listener. *)
Definition dispatch (ev : dom_event) : PM unit :=
  match ev with
  | Typed text caret =>
      modify (fun b =>
                with_text text (fst (clamp text caret caret))
                  (snd (clamp text caret caret)) b) ;;
      content <- gets value ;;
      on_content_changed content
  | Select s e =>
      modify (fun b =>
                with_text (value b) (fst (clamp (value b) s e))
                  (snd (clamp (value b) s e)) b)
  | Blur => text <- gets value ;; saveContent text
  | Click action => toolbar_click action
  | CtrlKey key => shortcut key
  | BeforeUnload => text <- gets value ;; saveContent text
  | Elapse _ => ret tt
  end.

(** One event: an exception that leaves the listener is reported, and the
    page stays as the listener left it. *)
Definition handle (ev : dom_event) (b : state) : state :=
  match dispatch ev b with
  | (Normal _, b') => b'
  | (Abrupt t, b') => with_uncaught (uncaught b' ++ [t]) b'
  end.

Definition run (evs : list dom_event) (b : state) : state :=
  fold_left (fun b ev => handle ev b) evs b.

(** What the [try] block of [updatePreview] comes to on [text]: the HTML,
    or what was thrown first. *)
Definition tried (text : string) : completion string :=
  match sanitizeInput text with
  | Abrupt t => Abrupt t
  | Normal input =>
      match parseToHtml input with
      | Abrupt t => Abrupt t
      | Normal html =>
          match highlightAll with
          | Abrupt t => Abrupt t
          | Normal _ => Normal html
          end
      end
  end.

(** The render result of [text], when there is one: none when what was
    thrown is [null] or [undefined]. *)
Definition renderResult (text : string) : option RenderResult :=
  match tried text with
  | Normal html => Some (Rendered html)
  | Abrupt Null | Abrupt Undefined => None
  | Abrupt (Object e) => Some (Failed (message e))
  | Abrupt Messageless => Some (Failed "undefined")
  end.

(** The preview shows the text that is in the textarea. *)
Definition fresh (b : state) : Prop :=
  exists r, renderResult (value b) = Some r /\ preview b = display r.

End Methods.

(** [b'] is [b] but for what is shown and logged: the preview, the
    console and the debug pane. *)
Definition same_document (b b' : state) : Prop :=
  value b' = value b /\ selectionStart b' = selectionStart b
  /\ selectionEnd b' = selectionEnd b /\ focused b' = focused b
  /\ savedContent b' = savedContent b /\ wordCountOf b' = wordCountOf b
  /\ debugMode b' = debugMode b /\ exportRequests b' = exportRequests b
  /\ uncaught b' = uncaught b.

(** The selection is one inside the text. *)
Definition well_selected (b : state) : Prop :=
  valid_selection (value b) (selectionStart b) (selectionEnd b).

(** The store holds the text that is in the textarea. *)
Definition synced (b : state) : Prop :=
  savedContent b = Some (value b).

(** A page with the given text and selection and nothing else yet. *)
Definition blank (text : string) (s e : Z) : state :=
  mkState text s e false "" None [] None None false 0 [].

(** Sample services: an identity sanitizer, a transform that wraps its
    input in a paragraph, and a working highlighter. *)
Definition plain : Services := {|
  sanitizeInput := fun s => Normal s;
  parseToHtml := fun s => Normal ("<p>" ++ s ++ "</p>");
  highlightAll := Normal tt;
  stringify := fun fields => concat ", " (map snd fields)
|}.

(** Sample services whose transform throws a [ParseError] with the message
    ["unexpected token"]. *)
Definition rejecting : Services := {|
  sanitizeInput := fun s => Normal s;
  parseToHtml := fun _ => Abrupt (Object (mkError "unexpected token"));
  highlightAll := Normal tt;
  stringify := fun fields => concat ", " (map snd fields)
|}.

(** Sample services whose transform throws [null]. *)
Definition throwing_null : Services := {|
  sanitizeInput := fun s => Normal s;
  parseToHtml := fun _ => Abrupt Null;
  highlightAll := Normal tt;
  stringify := fun fields => concat ", " (map snd fields)
|}.

End Page.

(** A collaborator of the first part, as a service of a page: what it
    throws is an object with a message. *)
Definition lift {A : Type} (o : outcome A) : Page.completion A :=
  match o with
  | Return a => Page.Normal a
  | Throw e => Page.Abrupt (Page.Object e)
  end.

Definition as_services (H : Collaborators) : Page.Services := {|
  Page.sanitizeInput := fun text => lift (sanitizeInput text);
  Page.parseToHtml := fun input => lift (parseToHtml input);
  Page.highlightAll := lift highlightAll;
  Page.stringify := stringify
|}.

(** * Properties *)

Example isBlockLevel_h1 : isBlockLevel "jf " = true.
Proof. reflexivity. Qed.

Example isBlockLevel_h3 : isBlockLevel "jfff " = true.
Proof. reflexivity. Qed.

Example isBlockLevel_nested_quote : isBlockLevel "kll " = true.
Proof. reflexivity. Qed.

Example isBlockLevel_bold : isBlockLevel "js " = false.
Proof. reflexivity. Qed.

Example isBlockLevel_code : isBlockLevel ("jkd python" ++ JS.nl) = false.
Proof. reflexivity. Qed.

Example newText_bold_hello :
  newText "hello" 5 5 "js " " sj" true = "hellojs  sj".
Proof. reflexivity. Qed.

Example newPosition_bold_hello :
  newPosition "hello" 5 5 "js " " sj" true = 11.
Proof. reflexivity. Qed.

Example newText_heading_mid_line :
  newText "abcd" 2 2 "jf " JS.nl true = "ab" ++ JS.nl ++ "jf " ++ JS.nl ++ "cd".
Proof. reflexivity. Qed.

Example newText_code_block :
  newText "x = 1" 0 5 ("jkd python" ++ JS.nl) (JS.nl ++ "dkj") true
  = "jkd python" ++ JS.nl ++ "x = 1" ++ JS.nl ++ "dkj".
Proof. reflexivity. Qed.

Example slice_negative_start : JS.slice "abcdef" (-2) 6 = "ef".
Proof. reflexivity. Qed.

Example slice_inverted : JS.slice "abcdef" 4 2 = "".
Proof. reflexivity. Qed.

Example endsWith_newline : JS.endsWith ("ab" ++ JS.nl) JS.nl = true.
Proof. reflexivity. Qed.

(** ** Strings: lengths of slices *)

Lemma length_append (s t : string) :
  String.length (s ++ t) = (String.length s + String.length t)%nat.
Proof.
  induction s as [|c s IH]; simpl; [reflexivity | now rewrite IH].
Qed.

Lemma len_app (s t : string) : JS.len (s ++ t) = JS.len s + JS.len t.
Proof. unfold JS.len. rewrite length_append. lia. Qed.

Lemma len_nonneg (s : string) : 0 <= JS.len s.
Proof. unfold JS.len. lia. Qed.

Lemma length_substring (n m : nat) (s : string) :
  String.length (substring n m s) = Nat.min m (String.length s - n).
Proof.
  revert n m. induction s as [|c s IH]; intros [|n] [|m]; simpl;
    try reflexivity.
  - now rewrite IH, Nat.sub_0_r.
  - apply IH.
  - apply IH.
Qed.

Lemma rel_index_range (n k : Z) : 0 <= n -> 0 <= JS.rel_index n k <= n.
Proof.
  intros Hn. unfold JS.rel_index. destruct (k <? 0) eqn:E; lia.
Qed.

Lemma rel_index_inside (n k : Z) : 0 <= k <= n -> JS.rel_index n k = k.
Proof.
  intros Hk. unfold JS.rel_index. destruct (k <? 0) eqn:E; lia.
Qed.

(** The length of [s.slice(a, b)], for all integers [a] and [b]. *)
Lemma len_slice (s : string) (a b : Z) :
  JS.len (JS.slice s a b)
  = Z.max (JS.rel_index (JS.len s) b - JS.rel_index (JS.len s) a) 0.
Proof.
  unfold JS.slice.
  pose proof (rel_index_range (JS.len s) a (len_nonneg s)) as Ha.
  pose proof (rel_index_range (JS.len s) b (len_nonneg s)) as Hb.
  unfold JS.len at 1. rewrite length_substring. unfold JS.len in *. lia.
Qed.

Lemma len_slice_valid (s : string) (a b : Z) :
  0 <= a -> a <= b -> b <= JS.len s -> JS.len (JS.slice s a b) = b - a.
Proof.
  intros. rewrite len_slice, !rel_index_inside by lia. lia.
Qed.

Lemma substring_glue (n m k : nat) (s : string) :
  substring n m s ++ substring (n + m) k s = substring n (m + k) s.
Proof.
  revert n m. induction s as [|c s IH]; intros n m.
  - destruct n, m, k; reflexivity.
  - destruct n as [|n].
    + destruct m as [|m]; [reflexivity|].
      simpl. f_equal. apply (IH 0%nat m).
    + simpl. apply IH.
Qed.

Lemma substring_whole (s : string) : substring 0 (String.length s) s = s.
Proof. induction s as [|c s IH]; simpl; [reflexivity | now rewrite IH]. Qed.

(** For a valid selection the three slices taken by [insertMarkup] are the
    old text, cut in two places. *)
Lemma slices_partition (text : string) (start end_ : Z) :
  0 <= start -> start <= end_ -> end_ <= JS.len text ->
  JS.slice text 0 start ++ JS.slice text start end_ ++ JS.slice_from text end_
  = text.
Proof.
  intros H0 H1 H2. unfold JS.slice_from, JS.slice.
  rewrite !rel_index_inside by (pose proof (len_nonneg text); lia).
  replace (Z.to_nat (Z.max (start - 0) 0)) with (Z.to_nat start) by lia.
  replace (Z.to_nat (Z.max (end_ - start) 0))
    with (Z.to_nat end_ - Z.to_nat start)%nat by lia.
  replace (Z.to_nat (Z.max (JS.len text - end_) 0))
    with (String.length text - Z.to_nat end_)%nat by (unfold JS.len; lia).
  replace (Z.to_nat end_)
    with (Z.to_nat start + (Z.to_nat end_ - Z.to_nat start))%nat at 2 by lia.
  rewrite substring_glue.
  change (Z.to_nat 0) with 0%nat.
  replace (Z.to_nat start) with (0 + Z.to_nat start)%nat at 2 by lia.
  rewrite substring_glue.
  replace (Z.to_nat start
           + (Z.to_nat end_ - Z.to_nat start
              + (String.length text - Z.to_nat end_)))%nat
    with (String.length text) by (unfold JS.len in H2; lia).
  apply substring_whole.
Qed.

Lemma or_else_empty (s : string) : JS.or_else s "" = s.
Proof. destruct s; reflexivity. Qed.

Lemma len_if_truthy (s : string) :
  (if JS.truthy s then JS.len s else 0) = JS.len s.
Proof. destruct s; reflexivity. Qed.

(** ** The block-level pattern *)

Lemma prefix_cons (a b : ascii) (s t : string) :
  prefix (String a s) (String b t) = (Ascii.eqb b a && prefix s t)%bool.
Proof.
  simpl. destruct (ascii_dec a b) as [->|Hne].
  - now rewrite Ascii.eqb_refl.
  - destruct (Ascii.eqb_spec b a); [congruence | reflexivity].
Qed.

Lemma prefix_empty (t : string) : prefix "" t = true.
Proof. destruct t; reflexivity. Qed.

Module RegexFacts.
Import Regex.

Lemma matches_nullable (r : re) (s : string) :
  nullable r = true -> matches_at_start r s = true.
Proof. intros Hn. destruct s; simpl; now rewrite Hn. Qed.

Lemma matches_Alt (r1 r2 : re) (s : string) :
  matches_at_start (Alt r1 r2) s
  = (matches_at_start r1 s || matches_at_start r2 s)%bool.
Proof.
  revert r1 r2. induction s as [|c s IH]; intros r1 r2; simpl.
  - now rewrite !orb_false_r.
  - rewrite IH.
    destruct (nullable r1), (nullable r2); simpl;
      rewrite ?orb_true_r; try reflexivity.
Qed.

Lemma matches_Cat_Void (r : re) (s : string) :
  matches_at_start (Cat Void r) s = false.
Proof. induction s as [|c s IH]; simpl; [reflexivity | exact IH]. Qed.

Lemma matches_Cat_Eps (r : re) (s : string) :
  matches_at_start (Cat Eps r) s = matches_at_start r s.
Proof.
  destruct s as [|c s]; simpl; [reflexivity|].
  now rewrite matches_Alt, matches_Cat_Void.
Qed.

(** A pattern that begins with a literal character consumes it. *)
Lemma matches_Cat_Chr (c : ascii) (r : re) (s : string) :
  matches_at_start (Cat (Chr c) r) s
  = match s with
    | EmptyString => false
    | String d s' => (Ascii.eqb d c && matches_at_start r s')%bool
    end.
Proof.
  destruct s as [|d s]; simpl; [reflexivity|].
  destruct (Ascii.eqb d c); simpl.
  - apply matches_Cat_Eps.
  - apply matches_Cat_Void.
Qed.

(** A literal matches at the start exactly when it is a prefix. *)
Lemma matches_Lit (t s : string) :
  matches_at_start (Lit t) s = prefix t s.
Proof.
  revert s. induction t as [|a t IH]; intros s.
  - rewrite prefix_empty. now apply matches_nullable.
  - cbn [Lit]. rewrite matches_Cat_Chr. destruct s as [|d s].
    + reflexivity.
    + now rewrite prefix_cons, IH.
Qed.

(** [c d+] matches at the start exactly when [c d] is a prefix. *)
Lemma matches_Chr_Plus (c d : ascii) (s : string) :
  matches_at_start (Cat (Chr c) (Plus (Chr d))) s
  = prefix (String c (String d "")) s.
Proof.
  rewrite matches_Cat_Chr. destruct s as [|x s]; [reflexivity|].
  rewrite prefix_cons. f_equal. unfold Plus. rewrite matches_Cat_Chr.
  destruct s as [|y s]; [reflexivity|].
  rewrite prefix_cons, prefix_empty. f_equal.
  now apply matches_nullable.
Qed.

End RegexFacts.

(** A prefix matches [/^(jf+|ja|jl|kl)/] exactly when it begins with one of
    ["jf"], ["ja"], ["jl"], ["kl"]. *)
Lemma isBlockLevel_prefix (p : string) :
  isBlockLevel p
  = (prefix "jf" p || prefix "ja" p || prefix "jl" p || prefix "kl" p)%bool.
Proof.
  unfold isBlockLevel, blockPattern.
  rewrite !RegexFacts.matches_Alt, !RegexFacts.matches_Lit,
    RegexFacts.matches_Chr_Plus.
  now rewrite !orb_assoc.
Qed.

(** ** Running the methods *)

Section EditorFacts.

Context `{Collaborators}.

Lemma logDebug_returns (msg : string) (d : option (list (string * string)))
    (w : World) :
  exists w', logDebug msg d w = (Return tt, w') /\ logs_only w w'.
Proof.
  unfold logDebug, bind, gets. cbn.
  destruct (debugMode w) eqn:Hd; cbn.
  - destruct (debugOutput w) eqn:Ho; cbn;
      eexists; (split; [reflexivity|]); unfold logs_only; cbn; tauto.
  - eexists; split; [reflexivity|]. unfold logs_only; tauto.
Qed.

(** [updatePreview] always returns, whatever the collaborators do, and it
    touches neither the document nor the selection nor what was saved. *)
Lemma updatePreview_returns (w : World) :
  exists w', updatePreview w = (Return tt, w') /\ rendered_once w w'.
Proof.
  unfold updatePreview, bind, try_catch, modify, gets, call, console_error.
  cbn -[logDebug].
  destruct (sanitizeInput (value w)) as [input|e1]; cbn -[logDebug];
    [destruct (parseToHtml input) as [html|e2]; cbn -[logDebug];
     [destruct highlightAll as [[]|e3]; cbn -[logDebug]|]|].
  all: match goal with
       | |- context [logDebug ?m ?d ?x] =>
           destruct (logDebug_returns m d x) as (w' & -> & L)
       end.
  all: exists w'; split; [reflexivity|].
  all: unfold logs_only, rendered_once in *; cbn in *; intuition congruence.
Qed.

Lemma insertMarkup_returns (prefix suffix : string) (ensureNewline : bool)
    (w : World) :
  exists w',
    insertMarkup prefix suffix ensureNewline w = (Return tt, w')
    /\ inserted prefix suffix ensureNewline w w'.
Proof.
  unfold insertMarkup, bind, gets, modify, saveContent, setSelectionRange,
    focus.
  cbn -[updatePreview newText newPosition].
  match goal with
  | |- context [updatePreview ?x] =>
      destruct (updatePreview_returns x) as (w1 & -> & R)
  end.
  eexists; split; [reflexivity|].
  unfold rendered_once, inserted in *; cbn in *. intuition congruence.
Qed.

End EditorFacts.

(** ** The assembled text and the caret *)

Lemma len_newText (text : string) (start end_ : Z) (prefix suffix : string)
    (ensureNewline : bool) :
  JS.len (newText text start end_ prefix suffix ensureNewline)
  = JS.len (JS.slice text 0 start)
    + JS.len (prependNewline text start prefix ensureNewline)
    + JS.len prefix
    + JS.len (selectedText text start end_)
    + JS.len suffix
    + JS.len (appendNewline prefix suffix ensureNewline)
    + JS.len (JS.slice_from text end_).
Proof.
  unfold newText. rewrite or_else_empty, !len_app. lia.
Qed.

Lemma newPosition_eq (text : string) (start end_ : Z) (prefix suffix : string)
    (ensureNewline : bool) :
  newPosition text start end_ prefix suffix ensureNewline
  = start
    + JS.len (prependNewline text start prefix ensureNewline)
    + JS.len prefix
    + JS.len (selectedText text start end_)
    + JS.len suffix.
Proof.
  unfold newPosition. now rewrite or_else_empty, len_if_truthy.
Qed.

Lemma prependNewline_cases (text : string) (start : Z) (prefix : string)
    (ensureNewline : bool) :
  prependNewline text start prefix ensureNewline = JS.nl
  \/ prependNewline text start prefix ensureNewline = "".
Proof. unfold prependNewline. destruct (_ && _)%bool; auto. Qed.

Lemma appendNewline_cases (prefix suffix : string) (ensureNewline : bool) :
  appendNewline prefix suffix ensureNewline = JS.nl
  \/ appendNewline prefix suffix ensureNewline = "".
Proof. unfold appendNewline. destruct (_ && _)%bool; auto. Qed.

Lemma prependNewline_inline (text : string) (start : Z) (prefix : string)
    (ensureNewline : bool) :
  isBlockLevel prefix = false ->
  prependNewline text start prefix ensureNewline = "".
Proof.
  intros Hb. unfold prependNewline. now rewrite Hb, andb_false_r.
Qed.

Lemma appendNewline_inline (prefix suffix : string) (ensureNewline : bool) :
  isBlockLevel prefix = false ->
  appendNewline prefix suffix ensureNewline = "".
Proof.
  intros Hb. unfold appendNewline. now rewrite Hb, andb_false_r.
Qed.

(** When a leading newline is prepended. *)
Lemma prependNewline_iff (text : string) (start : Z) (prefix : string)
    (ensureNewline : bool) :
  prependNewline text start prefix ensureNewline = JS.nl
  <-> ensureNewline = true /\ isBlockLevel prefix = true /\ 0 < start
      /\ JS.at_index text (start - 1) <> Some JS.LF.
Proof.
  unfold prependNewline, JS.not_newline_at.
  destruct ensureNewline; cbn [andb].
  2: { split; [discriminate | intros (E & _); discriminate]. }
  destruct (Z.ltb_spec 0 start) as [Hs|Hs]; cbn [andb].
  2: { split; [discriminate | intros (_ & _ & L & _); lia]. }
  destruct (isBlockLevel prefix); rewrite ?andb_true_r, ?andb_false_r.
  2: { split; [discriminate | intros (_ & E & _); discriminate]. }
  destruct (JS.at_index text (start - 1)) as [c|].
  - destruct (Ascii.eqb_spec c JS.LF) as [->|Hc]; cbn [negb].
    + split; [discriminate | intros (_ & _ & _ & N); now elim N].
    + split; [intros _; repeat split; try assumption; congruence
             | reflexivity].
  - split; [intros _; repeat split; try assumption; discriminate
           | reflexivity].
Qed.

(** Cutting at a valid selection loses nothing. *)
Lemma len_before (text : string) (start : Z) :
  0 <= start <= JS.len text -> JS.len (JS.slice text 0 start) = start.
Proof.
  intros Hs. rewrite len_slice_valid; lia.
Qed.

Lemma len_after (text : string) (end_ : Z) :
  0 <= end_ <= JS.len text ->
  JS.len (JS.slice_from text end_) = JS.len text - end_.
Proof.
  intros He. unfold JS.slice_from. rewrite len_slice_valid; lia.
Qed.

Lemma len_selectedText (text : string) (start end_ : Z) :
  valid_selection text start end_ ->
  JS.len (selectedText text start end_) = end_ - start.
Proof.
  intros (H0 & H1 & H2). unfold selectedText. now apply len_slice_valid.
Qed.

(** ** Markup insertion *)

Section InsertClaims.

Context `{Collaborators}.

Lemma value_insertMarkup (prefix suffix : string) (ensureNewline : bool)
    (w : World) :
  value (exec (insertMarkup prefix suffix ensureNewline) w)
  = newText (value w) (selectionStart w) (selectionEnd w)
      prefix suffix ensureNewline.
Proof.
  destruct (insertMarkup_returns prefix suffix ensureNewline w)
    as (w' & E & I).
  unfold exec. rewrite E. apply I.
Qed.

Lemma caret_insertMarkup (prefix suffix : string) (ensureNewline : bool)
    (w : World) :
  let w' := exec (insertMarkup prefix suffix ensureNewline) w in
  let position :=
    newPosition (value w) (selectionStart w) (selectionEnd w)
      prefix suffix ensureNewline in
  selectionStart w' = position /\ selectionEnd w' = position.
Proof.
  destruct (insertMarkup_returns prefix suffix ensureNewline w)
    as (w' & E & I).
  unfold exec. rewrite E. cbn. split; apply I.
Qed.

(** C2, as amended: for a valid selection the new content is as long as
    the old content plus the leading newline (0 or 1), the prefix, the
    suffix and the trailing newline (0 or 1).  The selected text is kept
    between prefix and suffix; it is part of the old content already and
    adds nothing. *)
Theorem C2_length_of_new_content (w : World) (prefix suffix : string)
    (ensureNewline : bool) :
  valid_selection (value w) (selectionStart w) (selectionEnd w) ->
  let leadingNL :=
    JS.len (prependNewline (value w) (selectionStart w) prefix
              ensureNewline) in
  let trailingNL := JS.len (appendNewline prefix suffix ensureNewline) in
  JS.len (value (exec (insertMarkup prefix suffix ensureNewline) w))
  = JS.len (value w) + leadingNL + JS.len prefix + JS.len suffix
    + trailingNL
  /\ (leadingNL = 0 \/ leadingNL = 1)
  /\ (trailingNL = 0 \/ trailingNL = 1).
Proof.
  intros V leadingNL trailingNL. pose proof V as (H0 & H1 & H2).
  split; [|split].
  - rewrite value_insertMarkup, len_newText.
    rewrite len_before, len_after, len_selectedText by (assumption || lia).
    subst leadingNL trailingNL. lia.
  - subst leadingNL.
    destruct (prependNewline_cases (value w) (selectionStart w) prefix
                ensureNewline) as [-> | ->]; cbn; auto.
  - subst trailingNL.
    destruct (appendNewline_cases prefix suffix ensureNewline)
      as [-> | ->]; cbn; auto.
Qed.

(** C3, as amended: on the empty buffer with selection [0,0], the heading
    rule (prefix ["jf "], suffix ["\n"], ensureNewline) gives the content
    ["jf \n"] and a collapsed caret at offset 4, after the suffix: the
    newline that ends the content is the rule's own suffix, which the caret
    formula counts, and no further newline is appended. *)
Theorem C3_heading_on_empty_buffer (w : World) :
  value w = "" -> selectionStart w = 0 -> selectionEnd w = 0 ->
  let w' := exec (insertMarkup "jf " JS.nl true) w in
  value w' = "jf " ++ JS.nl
  /\ selectionStart w' = 4 /\ selectionEnd w' = 4
  /\ appendNewline "jf " JS.nl true = "".
Proof.
  intros Hv Hs He w'. subst w'.
  pose proof (caret_insertMarkup "jf " JS.nl true w) as (Cs & Ce).
  rewrite value_insertMarkup, Cs, Ce, Hv, Hs, He.
  repeat split; reflexivity.
Qed.

(** C5: the text assembled by insert carries a leading newline between
    the part before the selection and the prefix only when ensureNewline
    holds, the prefix is block-level, selectionStart > 0 and the character
    before the selection is not a newline (and then it does); so none is
    inserted at the start of the document, and none after a newline. *)
Theorem C5_leading_newline (w : World) (prefix suffix : string)
    (ensureNewline : bool) :
  let text := value w in
  let start := selectionStart w in
  let lead := prependNewline text start prefix ensureNewline in
  value (exec (insertMarkup prefix suffix ensureNewline) w)
  = JS.slice text 0 start ++ lead ++ prefix
    ++ selectedText text start (selectionEnd w) ++ suffix
    ++ appendNewline prefix suffix ensureNewline
    ++ JS.slice_from text (selectionEnd w)
  /\ (lead = JS.nl \/ lead = "")
  /\ (lead = JS.nl
      <-> ensureNewline = true /\ isBlockLevel prefix = true /\ 0 < start
          /\ JS.at_index text (start - 1) <> Some JS.LF)
  /\ (start = 0 -> lead = "")
  /\ (JS.at_index text (start - 1) = Some JS.LF -> lead = "").
Proof.
  intros text start lead.
  assert (Hiff := prependNewline_iff text start prefix ensureNewline).
  assert (Hc := prependNewline_cases text start prefix ensureNewline).
  fold lead in Hiff, Hc.
  split; [|split; [exact Hc|split; [exact Hiff|split]]].
  - rewrite value_insertMarkup. unfold newText.
    now rewrite or_else_empty.
  - intros H0. destruct Hc as [Hc|Hc]; [|exact Hc].
    apply Hiff in Hc. lia.
  - intros HLF. destruct Hc as [Hc|Hc]; [|exact Hc].
    apply Hiff in Hc. tauto.
Qed.

(** C6: for a valid selection, insert leaves a collapsed selection
    [c,c], and [c] lies within the new content. *)
Theorem C6_caret_within_new_content (w : World) (prefix suffix : string)
    (ensureNewline : bool) :
  valid_selection (value w) (selectionStart w) (selectionEnd w) ->
  let w' := exec (insertMarkup prefix suffix ensureNewline) w in
  selectionStart w' = selectionEnd w'
  /\ 0 <= selectionStart w' <= JS.len (value w').
Proof.
  intros V w'. subst w'. pose proof V as (H0 & H1 & H2).
  pose proof (caret_insertMarkup prefix suffix ensureNewline w) as (Cs & Ce).
  rewrite Cs, Ce, value_insertMarkup, len_newText, newPosition_eq.
  rewrite len_before, len_after, len_selectedText by (assumption || lia).
  pose proof (len_nonneg prefix). pose proof (len_nonneg suffix).
  pose proof (len_nonneg (prependNewline (value w) (selectionStart w)
                            prefix ensureNewline)).
  pose proof (len_nonneg (appendNewline prefix suffix ensureNewline)).
  lia.
Qed.

(** C10: the horizontal-rule action inserts the prefix ["js"] with the
    suffix ["\n"]; ["js"] is not block-level, so no leading newline is
    prepended and no trailing one appended, and on every buffer the new
    content is before + ["js"] + selected text + ["\n"] + after. *)
Theorem C10_horizontal_rule (w : World) :
  let text := value w in
  let start := selectionStart w in
  let end_ := selectionEnd w in
  insertHorizontalRule = insertMarkup "js" JS.nl true
  /\ isBlockLevel "js" = false
  /\ prependNewline text start "js" true = ""
  /\ appendNewline "js" JS.nl true = ""
  /\ value (exec insertHorizontalRule w)
     = JS.slice text 0 start ++ "js" ++ selectedText text start end_
       ++ JS.nl ++ JS.slice_from text end_
  /\ value (exec (toolbar_click (Some "hr")) w)
     = value (exec insertHorizontalRule w).
Proof.
  intros text start end_.
  split; [reflexivity|]. split; [reflexivity|].
  split; [now apply prependNewline_inline|]. split; [reflexivity|].
  split; [|reflexivity].
  unfold insertHorizontalRule. rewrite value_insertMarkup. unfold newText.
  rewrite or_else_empty, prependNewline_inline by reflexivity.
  reflexivity.
Qed.

End InsertClaims.

(** ** The steps of an insertion *)

Section UnfoldFacts.

Context `{Collaborators}.

(** [insertMarkup], with its reads and writes spelled out. *)
Lemma insertMarkup_unfold (prefix suffix : string) (ensureNewline : bool)
    (w : World) :
  insertMarkup prefix suffix ensureNewline w
  = let new :=
      newText (value w) (selectionStart w) (selectionEnd w)
        prefix suffix ensureNewline in
    let position :=
      newPosition (value w) (selectionStart w) (selectionEnd w)
        prefix suffix ensureNewline in
    let w1 := with_savedContent (Some new) (with_value new w) in
    (Return tt,
     with_focused true
       (with_selection position position (snd (updatePreview w1)))).
Proof.
  unfold insertMarkup, bind, gets, modify, saveContent, setSelectionRange,
    focus.
  cbn -[updatePreview newText newPosition].
  match goal with
  | |- context [updatePreview ?x] =>
      destruct (updatePreview_returns x) as (w1 & -> & _)
  end.
  reflexivity.
Qed.

End UnfoldFacts.

(** ** The preview *)

Section PreviewClaims.

Context `{Collaborators}.

(** What the preview holds after a render cycle, by what the
    collaborators did. *)
Lemma preview_updatePreview (w : World) :
  preview (exec updatePreview w)
  = display
      match sanitizeInput (value w) with
      | Throw e => Failed (message e)
      | Return input =>
          match parseToHtml input with
          | Throw e => Failed (message e)
          | Return html =>
              match highlightAll with
              | Throw e => Failed (message e)
              | Return _ => Rendered html
              end
          end
      end.
Proof.
  unfold exec, updatePreview, bind, try_catch, modify, gets, call,
    console_error.
  cbn -[logDebug].
  destruct (sanitizeInput (value w)) as [input|e1]; cbn -[logDebug];
    [destruct (parseToHtml input) as [html|e2]; cbn -[logDebug];
     [destruct highlightAll as [[]|e3]; cbn -[logDebug]|]|].
  all: match goal with
       | |- context [logDebug ?m ?d ?x] =>
           destruct (logDebug_returns m d x) as (w' & -> & L)
       end.
  all: unfold logs_only in L; cbn in *; intuition congruence.
Qed.

End PreviewClaims.

(** ** Toolbar, shortcuts and typing *)

Lemma inline_markers_differ (text : string) (start end_ : Z)
    (p1 s1 p2 s2 : string) (e1 e2 : bool) :
  isBlockLevel p1 = false -> isBlockLevel p2 = false ->
  JS.len p1 + JS.len s1 <> JS.len p2 + JS.len s2 ->
  newText text start end_ p1 s1 e1 <> newText text start end_ p2 s2 e2.
Proof.
  intros B1 B2 Hlen E. apply (f_equal JS.len) in E.
  rewrite !len_newText in E.
  rewrite !prependNewline_inline, !appendNewline_inline in E by assumption.
  lia.
Qed.

Section DispatchClaims.

Context `{Collaborators}.

(** C8: for an action tag outside the known ones (or a missing tag), the
    toolbar dispatcher returns normally; all it does is write one warning
    that names the tag, so content, selection, preview and the persisted
    content stay as they were. *)
Theorem C8_unknown_toolbar_action (w : World) (action : option string) :
  unknown_action action ->
  let w' := exec (toolbar_click action) w in
  toolbar_click action w
  = (Return tt,
     with_console
       (console w ++ [Warn ("Unknown toolbar action: " ++ action_tag action)])
       w)
  /\ value w' = value w
  /\ selectionStart w' = selectionStart w
  /\ selectionEnd w' = selectionEnd w
  /\ preview w' = preview w
  /\ savedContent w' = savedContent w
  /\ wordCountOf w' = wordCountOf w
  /\ rendered w' = rendered w
  /\ exportRequests w' = exportRequests w.
Proof.
  intros Hun w'.
  assert (E : toolbar_click action w
              = (Return tt,
                 with_console
                   (console w
                    ++ [Warn ("Unknown toolbar action: "
                              ++ action_tag action)]) w)).
  { destruct action as [a|]; [|reflexivity].
    unfold unknown_action, knownActions in Hun.
    unfold toolbar_click. repeat unknown_case Hun. reflexivity. }
  subst w'. unfold exec. rewrite E. cbn. repeat split; reflexivity.
Qed.

(** C9: Ctrl+B, Ctrl+I and Ctrl+U insert the markers without spaces,
    the toolbar actions bold, italic and underline insert them padded with
    a space, and on every buffer the two paths of one action leave
    different content. *)
Theorem C9_shortcut_and_toolbar_differ (w : World) :
  (shortcut "b" = insertMarkup "js" "sj" true
   /\ toolbar_click (Some "bold") = insertMarkup "js " " sj" true
   /\ value (exec (shortcut "b") w)
      <> value (exec (toolbar_click (Some "bold")) w))
  /\ (shortcut "i" = insertMarkup "jd" "dj" true
      /\ toolbar_click (Some "italic") = insertMarkup "jd " " dj" true
      /\ value (exec (shortcut "i") w)
         <> value (exec (toolbar_click (Some "italic")) w))
  /\ (shortcut "u" = insertMarkup "ju" "uj" true
      /\ toolbar_click (Some "underline") = insertMarkup "ju " " uj" true
      /\ value (exec (shortcut "u") w)
         <> value (exec (toolbar_click (Some "underline")) w)).
Proof.
  repeat split; try reflexivity.
  all: cbn [shortcut toolbar_click String.eqb Ascii.eqb Bool.eqb andb];
    rewrite !value_insertMarkup;
    apply inline_markers_differ; try reflexivity; cbn; lia.
Qed.

Lemma on_content_changed_returns (content : string) (w : World) :
  exists w',
    on_content_changed content w = (Return tt, w')
    /\ value w' = value w
    /\ rendered w' = (rendered w ++ [value w])%list
    /\ savedContent w' = Some content.
Proof.
  unfold on_content_changed, bind, saveContent, updateWordCount, modify.
  cbn -[updatePreview].
  match goal with
  | |- context [updatePreview ?x] =>
      destruct (updatePreview_returns x) as (w1 & -> & R)
  end.
  exists w1. unfold rendered_once in R; cbn in R. intuition congruence.
Qed.

Lemma dispatch_Input (typed : string) (w : World) :
  exists w',
    dispatch (Input typed) w = (Return tt, w')
    /\ value w' = typed
    /\ rendered w' = (rendered w ++ [typed])%list
    /\ savedContent w' = Some typed.
Proof.
  unfold dispatch, bind, modify, gets. cbn -[on_content_changed].
  match goal with
  | |- context [on_content_changed ?c ?x] =>
      destruct (on_content_changed_returns c x) as (w1 & -> & V & R & S)
  end.
  exists w1. cbn in *. auto.
Qed.

(** Every edit is saved and rendered at once, and nothing is left to run
    when time passes: after [N] edits and any wait the render trace has
    grown by all [N] contents, in the order typed. *)
Lemma every_edit_is_rendered (edits : list string) (wait : Z) (w : World) :
  exists w',
    run (map Input edits ++ [Elapse wait]) w = (Return tt, w')
    /\ rendered w' = (rendered w ++ edits)%list
    /\ List.length (rendered w')
       = (List.length (rendered w) + List.length edits)%nat.
Proof.
  revert w. induction edits as [|typed edits IH]; intros w.
  - exists w. cbn. rewrite app_nil_r. repeat split. lia.
  - destruct (dispatch_Input typed w) as (w1 & E1 & V1 & R1 & S1).
    destruct (IH w1) as (w' & E & R & L).
    exists w'. cbn [map app run]. unfold bind at 1. rewrite E1.
    split; [exact E|].
    rewrite R, R1, <- app_assoc. split; [reflexivity|].
    rewrite !List.length_app. cbn [List.length]. lia.
Qed.

(** C1, on the code: two edits, ["a"] and then ["ab"], followed by any
    wait, make two render cycles, of ["a"] and of ["ab"]; the claim asks
    for exactly one, of ["ab"].  The input listener emits
    ["content-changed"] on every event and the imported [debounce] is never
    applied. *)
Theorem C1_two_edits_render_twice (wait : Z) :
  let w' := exec (run [Input "a"; Input "ab"; Elapse wait]) (page "" 0 0) in
  rendered w' = ["a"; "ab"]
  /\ List.length (rendered w') = 2%nat
  /\ rendered w' <> ["ab"].
Proof.
  destruct (every_edit_is_rendered ["a"; "ab"] wait (page "" 0 0))
    as (w' & E & R & L).
  cbn [map app] in E. unfold exec. rewrite E. cbn [snd].
  rewrite R. cbn. repeat split. discriminate.
Qed.

End DispatchClaims.

(** ** The claims on concrete pages *)

(** Wrapping all of ["hello"] in the bold markers gives 11 characters; the
    sum that also counts the selected text is 16. *)
Lemma C2_counterexample :
  let w := page "hello" 0 5 in
  JS.len (value (exec (@insertMarkup plain "js " " sj" true) w))
  <> JS.len (value w)
     + JS.len (prependNewline (value w) (selectionStart w) "js " true)
     + JS.len "js "
     + JS.len (selectedText (value w) (selectionStart w) (selectionEnd w))
     + JS.len " sj"
     + JS.len (appendNewline "js " " sj" true).
Proof. vm_compute. discriminate. Qed.

(** The length law on ["hello"] with ["ell"] selected. *)
Lemma C2_witness :
  valid_selection "hello" 1 3
  /\ JS.len (value (exec (@insertMarkup plain "js " " sj" true)
                      (page "hello" 1 3)))
     = 5 + 0 + 3 + 3 + 0.
Proof.
  assert (V : valid_selection "hello" 1 3)
    by (unfold valid_selection; cbn; lia).
  split; [exact V|].
  exact (proj1 (@C2_length_of_new_content plain (page "hello" 1 3)
                  "js " " sj" true V)).
Defined.

(** On the empty buffer the heading rule does not leave the caret at 3. *)
Lemma C3_counterexample :
  let w' := exec (@insertMarkup plain "jf " JS.nl true) (page "" 0 0) in
  ~ (value w' = "jf " ++ JS.nl
     /\ selectionStart w' = 3 /\ selectionEnd w' = 3).
Proof. vm_compute. intros (_ & E & _). discriminate E. Qed.

(** The heading rule on the empty page. *)
Lemma C3_witness :
  let w' := exec (@insertMarkup plain "jf " JS.nl true) (page "" 0 0) in
  value w' = "jf " ++ JS.nl /\ selectionStart w' = 4 /\ selectionEnd w' = 4.
Proof.
  destruct (@C3_heading_on_empty_buffer plain (page "" 0 0)
              eq_refl eq_refl eq_refl) as (V & S & E & _).
  repeat split; assumption.
Defined.

(** No leading newline after a newline or at offset 0; one in mid-line. *)
Lemma C5_witness :
  prependNewline ("ab" ++ JS.nl ++ "cd") 3 "jf " true = ""
  /\ prependNewline "abcd" 0 "jf " true = ""
  /\ prependNewline "abcd" 2 "jf " true = JS.nl.
Proof.
  split; [|split].
  - exact (proj2 (proj2 (proj2 (proj2
             (@C5_leading_newline plain (page ("ab" ++ JS.nl ++ "cd") 3 3)
                "jf " JS.nl true)))) eq_refl).
  - exact (proj1 (proj2 (proj2 (proj2
             (@C5_leading_newline plain (page "abcd" 0 0)
                "jf " JS.nl true)))) eq_refl).
  - apply (proj1 (proj2 (proj2
             (@C5_leading_newline plain (page "abcd" 2 2)
                "jf " JS.nl true)))).
    cbn. repeat split; try lia. discriminate.
Defined.

(** The caret after a heading is inserted around ["el"] in ["hello"]. *)
Lemma C6_witness :
  valid_selection "hello" 1 3
  /\ let w' := exec (@insertMarkup plain "jf " JS.nl true)
                 (page "hello" 1 3) in
     selectionStart w' = selectionEnd w'
     /\ 0 <= selectionStart w' <= JS.len (value w').
Proof.
  assert (V : valid_selection "hello" 1 3)
    by (unfold valid_selection; cbn; lia).
  split; [exact V|].
  exact (@C6_caret_within_new_content plain (page "hello" 1 3)
           "jf " JS.nl true V).
Defined.

(** The tag ["strike"] has no [case]: one warning, and nothing else. *)
Lemma C8_witness :
  unknown_action (Some "strike")
  /\ @toolbar_click plain (Some "strike") (page "hello" 2 4)
     = (Return tt,
        with_console [Warn "Unknown toolbar action: strike"]
          (page "hello" 2 4)).
Proof.
  assert (U : unknown_action (Some "strike")).
  { cbn. intros D.
    repeat (destruct D as [D|D]; [discriminate D|]). exact D. }
  split; [exact U|].
  exact (proj1 (@C8_unknown_toolbar_action plain (page "hello" 2 4)
                  (Some "strike") U)).
Defined.

(** * Further properties of the editor *)

(** ** Strings: pieces of a concatenation *)

Lemma append_assoc (a b c : string) : (a ++ b) ++ c = a ++ b ++ c.
Proof. induction a as [|x a IH]; simpl; [reflexivity | now rewrite IH]. Qed.

Lemma append_nil_r (a : string) : a ++ "" = a.
Proof. induction a as [|x a IH]; simpl; [reflexivity | now rewrite IH]. Qed.

Lemma substring_app_right (a b : string) (n m : nat) :
  substring (String.length a + n) m (a ++ b) = substring n m b.
Proof. induction a as [|x a IH]; simpl; [reflexivity | exact IH]. Qed.

Lemma substring_app_head (a b : string) :
  substring 0 (String.length a) (a ++ b) = a.
Proof.
  induction a as [|x a IH]; simpl.
  - destruct b; reflexivity.
  - now rewrite IH.
Qed.

Lemma slice_inside (s : string) (a b : Z) :
  0 <= a -> a <= b -> b <= JS.len s ->
  JS.slice s a b = substring (Z.to_nat a) (Z.to_nat b - Z.to_nat a) s.
Proof.
  intros H0 H1 H2. unfold JS.slice.
  rewrite !rel_index_inside by lia. f_equal. lia.
Qed.

(** The head of a concatenation. *)
Lemma slice_app_head (a b : string) : JS.slice (a ++ b) 0 (JS.len a) = a.
Proof.
  pose proof (len_nonneg a). pose proof (len_nonneg b).
  rewrite slice_inside by (rewrite ?len_app; lia).
  change (Z.to_nat 0) with 0%nat. rewrite Nat.sub_0_r.
  unfold JS.len. rewrite Nat2Z.id. apply substring_app_head.
Qed.

(** A piece in the middle of a concatenation. *)
Lemma slice_app_mid (a x b : string) :
  JS.slice (a ++ x ++ b) (JS.len a) (JS.len a + JS.len x) = x.
Proof.
  pose proof (len_nonneg a). pose proof (len_nonneg x).
  pose proof (len_nonneg b).
  rewrite slice_inside by (rewrite ?len_app; lia).
  unfold JS.len.
  replace (Z.to_nat (Z.of_nat (String.length a)))
    with (String.length a + 0)%nat by lia.
  replace (Z.to_nat (Z.of_nat (String.length a) + Z.of_nat (String.length x))
           - (String.length a + 0))%nat
    with (String.length x) by lia.
  rewrite substring_app_right. apply substring_app_head.
Qed.

(** The tail of a concatenation. *)
Lemma slice_from_app (a b : string) : JS.slice_from (a ++ b) (JS.len a) = b.
Proof.
  pose proof (len_nonneg a). pose proof (len_nonneg b).
  unfold JS.slice_from. rewrite slice_inside by (rewrite ?len_app; lia).
  rewrite len_app. unfold JS.len.
  replace (Z.to_nat (Z.of_nat (String.length a)))
    with (String.length a + 0)%nat by lia.
  replace (Z.to_nat (Z.of_nat (String.length a) + Z.of_nat (String.length b))
           - (String.length a + 0))%nat
    with (String.length b) by lia.
  rewrite substring_app_right.
  rewrite <- (append_nil_r b) at 2. apply substring_app_head.
Qed.

Lemma at_index_app_right (a b : string) (k : Z) :
  0 <= k -> JS.at_index (a ++ b) (JS.len a + k) = JS.at_index b k.
Proof.
  intros Hk. pose proof (len_nonneg a). unfold JS.at_index.
  destruct (Z.ltb_spec (JS.len a + k) 0), (Z.ltb_spec k 0); try lia.
  rewrite (append_correct2 a b (Z.to_nat k)). f_equal. unfold JS.len. lia.
Qed.

Lemma at_index_app_left (a b : string) (k : Z) :
  0 <= k < JS.len a -> JS.at_index (a ++ b) k = JS.at_index a k.
Proof.
  intros Hk. unfold JS.at_index.
  destruct (Z.ltb_spec k 0); try lia.
  symmetry. apply append_correct1. unfold JS.len in Hk. lia.
Qed.

(** A character of the text before the cut is a character of the text. *)
Lemma at_index_before (text : string) (start k : Z) :
  0 <= k < start -> start <= JS.len text ->
  JS.at_index (JS.slice text 0 start) k = JS.at_index text k.
Proof.
  intros Hk Hs. rewrite slice_inside by lia. unfold JS.at_index.
  destruct (Z.ltb_spec k 0); try lia.
  rewrite substring_correct1 by lia. f_equal. lia.
Qed.


Lemma endsWith_app_nl (s : string) : JS.endsWith (s ++ JS.nl) JS.nl = true.
Proof.
  unfold JS.endsWith. rewrite length_append. cbn [String.length JS.nl].
  apply andb_true_iff. split; [apply Nat.leb_le; lia|].
  apply String.eqb_eq.
  replace (String.length s + 1 - 1)%nat with (String.length s + 0)%nat by lia.
  now rewrite substring_app_right.
Qed.

(** A prefix test, told as a split of the subject. *)
Lemma prefix_iff (t p : string) :
  prefix t p = true <-> exists rest, p = t ++ rest.
Proof.
  revert p. induction t as [|a t IH]; intros p.
  - rewrite prefix_empty. split; [intros _; now exists p | reflexivity].
  - destruct p as [|b p].
    + split; [discriminate | intros (rest & E); discriminate E].
    + rewrite prefix_cons, andb_true_iff, IH. split.
      * intros (Eab & rest & ->). apply Ascii.eqb_eq in Eab. subst b.
        now exists rest.
      * intros (rest & E). injection E as -> ->.
        split; [apply Ascii.eqb_refl | now exists rest].
Qed.

(** ** Which rules are block-level, and what a block ends with *)

(** X1: a prefix is block-level exactly when it begins with ["jf"],
    ["ja"], ["jl"] or ["kl"]; whatever follows these two characters plays no
    part. *)
Theorem X1_block_level_prefixes (p : string) :
  isBlockLevel p = true
  <-> (exists rest, p = "jf" ++ rest) \/ (exists rest, p = "ja" ++ rest)
      \/ (exists rest, p = "jl" ++ rest) \/ (exists rest, p = "kl" ++ rest).
Proof.
  rewrite isBlockLevel_prefix, !orb_true_iff, !prefix_iff. tauto.
Qed.

Lemma appendNewline_iff (prefix suffix : string) (ensureNewline : bool) :
  appendNewline prefix suffix ensureNewline = JS.nl
  <-> ensureNewline = true /\ isBlockLevel prefix = true
      /\ JS.endsWith suffix JS.nl = false.
Proof.
  unfold appendNewline.
  destruct ensureNewline, (JS.endsWith suffix JS.nl), (isBlockLevel prefix);
    cbn; split; try discriminate; try tauto;
    intros (A & B & C); discriminate.
Qed.

(** X2: a trailing newline is appended exactly when ensureNewline holds,
    the prefix is block-level and the suffix does not end with a newline
    already; so what a block-level rule puts after the selection always ends
    with a newline, and with exactly the suffix when that ends with one. *)
Theorem X2_block_ends_with_newline (prefix suffix : string)
    (ensureNewline : bool) :
  (appendNewline prefix suffix ensureNewline = JS.nl
   <-> ensureNewline = true /\ isBlockLevel prefix = true
       /\ JS.endsWith suffix JS.nl = false)
  /\ (ensureNewline = true -> isBlockLevel prefix = true ->
      JS.endsWith (suffix ++ appendNewline prefix suffix ensureNewline) JS.nl
      = true)
  /\ (JS.endsWith suffix JS.nl = true ->
      suffix ++ appendNewline prefix suffix ensureNewline = suffix).
Proof.
  split; [apply appendNewline_iff|]. split.
  - intros He Hb. destruct (JS.endsWith suffix JS.nl) eqn:Es.
    + destruct (appendNewline_cases prefix suffix ensureNewline) as [A|A].
      * apply appendNewline_iff in A. destruct A as (_ & _ & A). congruence.
      * now rewrite A, append_nil_r.
    + assert (A : appendNewline prefix suffix ensureNewline = JS.nl)
        by (apply appendNewline_iff; auto).
      rewrite A. apply endsWith_app_nl.
  - intros Es.
    destruct (appendNewline_cases prefix suffix ensureNewline) as [A|A].
    + apply appendNewline_iff in A. destruct A as (_ & _ & A). congruence.
    + now rewrite A, append_nil_r.
Qed.

(** ** Where the pieces of the old text are in the new one *)

Section InsertFacts.

Context `{Collaborators}.

(** X3: for a valid selection, a block-level rule has its prefix placed
    at the offset selectionStart + leading newline, and that offset is the
    start of a line: it is 0 or the character before it is a newline. *)
Theorem X3_block_prefix_starts_a_line (w : World) (prefix suffix : string) :
  well_selected w ->
  isBlockLevel prefix = true ->
  let new := value (exec (insertMarkup prefix suffix true) w) in
  let at_ :=
    selectionStart w
    + JS.len (prependNewline (value w) (selectionStart w) prefix true) in
  JS.slice new at_ (at_ + JS.len prefix) = prefix
  /\ (at_ = 0 \/ JS.at_index new (at_ - 1) = Some JS.LF).
Proof.
  intros V Hb new at_. pose proof V as (H0 & H1 & H2).
  subst new at_. rewrite value_insertMarkup. unfold newText.
  set (before := JS.slice (value w) 0 (selectionStart w)).
  set (lead := prependNewline (value w) (selectionStart w) prefix true).
  assert (Lb : JS.len before = selectionStart w)
    by (apply len_before; lia).
  split.
  - rewrite <- (append_assoc before lead).
    rewrite <- Lb, <- len_app. apply slice_app_mid.
  - destruct (prependNewline_cases (value w) (selectionStart w) prefix true)
      as [A|A]; fold lead in A.
    + right. rewrite A.
      replace (selectionStart w + JS.len JS.nl - 1) with (JS.len before + 0)
        by (rewrite Lb; change (JS.len JS.nl) with 1; lia).
      now rewrite at_index_app_right by lia.
    + destruct (Z.eq_dec (selectionStart w) 0) as [Z0|NZ].
      * left. rewrite A, Z0. reflexivity.
      * right. rewrite A. cbn [JS.len String.length Z.of_nat].
        replace (selectionStart w + 0 - 1) with (selectionStart w - 1) by lia.
        rewrite at_index_app_left by lia.
        unfold before. rewrite at_index_before by lia.
        destruct (JS.at_index (value w) (selectionStart w - 1)) as [c|] eqn:E.
        -- destruct (Ascii.eqb_spec c JS.LF) as [->|Hc]; [reflexivity|].
           assert (N : lead = JS.nl).
           { apply prependNewline_iff. repeat split; try assumption.
             - lia.
             - rewrite E. congruence. }
           rewrite A in N. discriminate N.
        -- assert (N : lead = JS.nl).
           { apply prependNewline_iff. repeat split; try assumption.
             - lia.
             - rewrite E. discriminate. }
           rewrite A in N. discriminate N.
Qed.

(** X4: insert only adds.  For a valid selection the text before the
    selection, the selected text and the text after it are in the new
    content as they were: at offset 0, right after the prefix, and right
    after the trailing newline; and these three pieces are all of the old
    text. *)
Theorem X4_old_text_is_kept (w : World) (prefix suffix : string)
    (ensureNewline : bool) :
  well_selected w ->
  let text := value w in
  let start := selectionStart w in
  let end_ := selectionEnd w in
  let new := value (exec (insertMarkup prefix suffix ensureNewline) w) in
  let lead := JS.len (prependNewline text start prefix ensureNewline) in
  let trail := JS.len (appendNewline prefix suffix ensureNewline) in
  let selected := selectedText text start end_ in
  let from := start + lead + JS.len prefix in
  let rest := from + JS.len selected + JS.len suffix + trail in
  JS.slice new 0 start = JS.slice text 0 start
  /\ JS.slice new from (from + JS.len selected) = selected
  /\ JS.slice_from new rest = JS.slice_from text end_
  /\ JS.slice text 0 start ++ selected ++ JS.slice_from text end_ = text.
Proof.
  intros V text start end_ new lead trail selected from rest.
  pose proof V as (H0 & H1 & H2). fold text start end_ in H0, H1, H2.
  subst new. rewrite value_insertMarkup. unfold newText.
  rewrite or_else_empty. fold text start end_ selected.
  set (before := JS.slice text 0 start).
  set (nl1 := prependNewline text start prefix ensureNewline).
  set (nl2 := appendNewline prefix suffix ensureNewline).
  set (after := JS.slice_from text end_).
  assert (Lb : JS.len before = start) by (apply len_before; lia).
  repeat split.
  - rewrite <- Lb. apply slice_app_head.
  - replace (before ++ nl1 ++ prefix ++ selected ++ suffix ++ nl2 ++ after)
      with ((before ++ nl1 ++ prefix) ++ selected ++ suffix ++ nl2 ++ after)
      by (now rewrite !append_assoc).
    replace from with (JS.len (before ++ nl1 ++ prefix))
      by (subst from lead nl1; rewrite !len_app; lia).
    apply slice_app_mid.
  - replace (before ++ nl1 ++ prefix ++ selected ++ suffix ++ nl2 ++ after)
      with ((before ++ nl1 ++ prefix ++ selected ++ suffix ++ nl2) ++ after)
      by (now rewrite !append_assoc).
    replace rest
      with (JS.len (before ++ nl1 ++ prefix ++ selected ++ suffix ++ nl2))
      by (subst rest from lead trail nl1 nl2; rewrite !len_app; lia).
    apply slice_from_app.
  - apply slices_partition; assumption.
Qed.



End InsertFacts.

(** ** What every method keeps *)

Lemma pane_extends_refl (o : option string) : pane_extends o o.
Proof.
  destruct o as [t|]; cbn; [|exact I].
  exists "". now rewrite append_nil_r.
Qed.

Lemma pane_extends_trans (a b c : option string) :
  pane_extends a b -> pane_extends b c -> pane_extends a c.
Proof.
  destruct a as [x|], b as [y|], c as [z|]; cbn; try tauto.
  intros (t1 & ->) (t2 & ->). exists (t1 ++ t2). apply append_assoc.
Qed.

Lemma debug_grows_refl (w : World) : debug_grows w w.
Proof.
  unfold debug_grows. repeat split. apply pane_extends_refl.
Qed.

Lemma debug_grows_trans (a b c : World) :
  debug_grows a b -> debug_grows b c -> debug_grows a c.
Proof.
  intros (M1 & P1 & O1) (M2 & P2 & O2). unfold debug_grows.
  split; [congruence|]. split; [eapply pane_extends_trans; eassumption|].
  intros Off. rewrite O2, O1; congruence.
Qed.

Lemma debug_grows_same (w w' : World) :
  debugMode w' = debugMode w -> debugOutput w' = debugOutput w ->
  debug_grows w w'.
Proof.
  intros M O. unfold debug_grows. rewrite M, O.
  repeat split. apply pane_extends_refl.
Qed.

Section RunFacts.

Context `{Collaborators}.

Lemma updatePreview_debug (w : World) :
  debug_grows w (snd (updatePreview w)).
Proof.
  unfold updatePreview, logDebug, bind, try_catch, modify, gets, call,
    console_error, console_log, ret.
  cbn.
  destruct (sanitizeInput (value w)) as [input|e1]; cbn;
    [destruct (parseToHtml input) as [html|e2]; cbn;
     [destruct highlightAll as [[]|e3]; cbn|]|].
  all: destruct (debugMode w) eqn:D; cbn;
    [destruct (debugOutput w) eqn:O; cbn|].
  all: unfold debug_grows; cbn; rewrite ?D;
    repeat split; try discriminate; try apply pane_extends_refl.
  all: try (rewrite O; cbn; now eexists).
  all: rewrite O; exact I.
Qed.

(** One render cycle, with everything it does. *)
Lemma updatePreview_step (w : World) :
  exists w',
    updatePreview w = (Return tt, w')
    /\ rendered_once w w'
    /\ preview w' = display (renderResult (value w))
    /\ debug_grows w w'.
Proof.
  destruct (updatePreview_returns w) as (w' & E & R).
  exists w'. split; [exact E|]. split; [exact R|]. split.
  - pose proof (preview_updatePreview w) as P.
    unfold exec in P. rewrite E in P. exact P.
  - pose proof (updatePreview_debug w) as D. now rewrite E in D.
Qed.

(** One insertion, with everything it does. *)
Lemma insertMarkup_step (prefix suffix : string) (ensureNewline : bool)
    (w : World) :
  exists w',
    insertMarkup prefix suffix ensureNewline w = (Return tt, w')
    /\ inserted prefix suffix ensureNewline w w'
    /\ synced w' /\ fresh w' /\ debug_grows w w'.
Proof.
  destruct (insertMarkup_returns prefix suffix ensureNewline w)
    as (w' & E & I).
  exists w'. split; [exact E|]. split; [exact I|].
  rewrite insertMarkup_unfold in E. cbv zeta in E.
  set (new := newText _ _ _ _ _ _) in *.
  set (position := newPosition _ _ _ _ _ _) in *.
  destruct (updatePreview_step
              (with_savedContent (Some new) (with_value new w)))
    as (w2 & E2 & R2 & P2 & D2).
  rewrite E2 in E. cbn [snd] in E. injection E as <-.
  unfold rendered_once in R2. cbn in R2, P2.
  destruct R2 as (V2 & _ & _ & _ & S2 & _).
  split; [|split].
  - unfold synced. cbn. congruence.
  - unfold fresh. cbn. congruence.
  - destruct D2 as (M2 & Pn & Off). unfold debug_grows. cbn in *.
    repeat split; assumption.
Qed.

(** The toolbar [switch] has three kinds of arms. *)
Lemma toolbar_click_cases (action : option string) :
  (exists prefix suffix, toolbar_click action = insertMarkup prefix suffix true)
  \/ toolbar_click action = exportToPDF
  \/ (exists line, toolbar_click action = console_warn line).
Proof.
  destruct action as [a|]; [|right; right; eexists; reflexivity].
  unfold toolbar_click.
  repeat match goal with
         | |- context [if String.eqb a ?k then _ else _] =>
             destruct (String.eqb a k);
             [first [ left; do 2 eexists; reflexivity
                    | right; left; reflexivity ]|]
         end.
  right; right; eexists; reflexivity.
Qed.

(** The shortcut table has four kinds of entries. *)
Lemma shortcut_cases (key : string) :
  (exists prefix suffix, shortcut key = insertMarkup prefix suffix true)
  \/ shortcut key = (text <- gets value ;; saveContent text)
  \/ shortcut key = exportToPDF
  \/ shortcut key = ret tt.
Proof.
  unfold shortcut.
  repeat match goal with
         | |- context [if String.eqb key ?k then _ else _] =>
             destruct (String.eqb key k);
             [first [ left; do 2 eexists; reflexivity
                    | right; left; reflexivity
                    | right; right; left; reflexivity ]|]
         end.
  right; right; right; reflexivity.
Qed.

(** What holds across one event, whatever it is. *)
Lemma dispatch_step (ev : dom_event) (w : World) :
  exists w',
    dispatch ev w = (Return tt, w')
    /\ (synced w -> synced w')
    /\ (fresh w -> fresh w')
    /\ debug_grows w w'.
Proof.
  assert (Ins : forall prefix suffix,
             exists w',
               insertMarkup prefix suffix true w = (Return tt, w')
               /\ (synced w -> synced w') /\ (fresh w -> fresh w')
               /\ debug_grows w w').
  { intros prefix suffix.
    destruct (insertMarkup_step prefix suffix true w)
      as (w' & E & _ & S & F & D).
    exists w'. auto. }
  assert (Sav : exists w',
             (text <- gets value ;; saveContent text) w = (Return tt, w')
             /\ (synced w -> synced w') /\ (fresh w -> fresh w')
             /\ debug_grows w w').
  { eexists. split; [reflexivity|]. cbn.
    split; [intros _; reflexivity|]. split; [auto|]. apply debug_grows_same; reflexivity. }
  assert (Exp : exists w',
             exportToPDF w = (Return tt, w')
             /\ (synced w -> synced w') /\ (fresh w -> fresh w')
             /\ debug_grows w w').
  { eexists. split; [reflexivity|]. cbn.
    split; [auto|]. split; [auto|]. apply debug_grows_same; reflexivity. }
  destruct ev as [typed| |action|key| |ms].
  - unfold dispatch, emit, on_content_changed, bind, modify, gets,
      saveContent, updateWordCount.
    cbn -[updatePreview].
    match goal with
    | |- context [updatePreview ?x] =>
        destruct (updatePreview_step x) as (w' & -> & R & P & D)
    end.
    exists w'. split; [reflexivity|].
    unfold rendered_once in R. cbn in R, P.
    destruct R as (V & _ & _ & _ & S & _).
    split; [intros _; unfold synced; congruence|].
    split; [intros _; unfold fresh; congruence|].
    destruct D as (M & Pn & Off). unfold debug_grows. cbn in *.
    repeat split; assumption.
  - exact Sav.
  - cbn [dispatch].
    destruct (toolbar_click_cases action) as [(p & s & ->)|[->|(l & ->)]].
    + apply Ins.
    + exact Exp.
    + eexists. split; [reflexivity|]. cbn.
      split; [auto|]. split; [auto|]. apply debug_grows_same; reflexivity.
  - cbn [dispatch].
    destruct (shortcut_cases key) as [(p & s & ->)|[->|[->| ->]]].
    + apply Ins.
    + exact Sav.
    + exact Exp.
    + exists w. split; [reflexivity|].
      split; [auto|]. split; [auto|]. apply debug_grows_refl.
  - exact Sav.
  - exists w. split; [reflexivity|].
    split; [auto|]. split; [auto|]. apply debug_grows_refl.
Qed.

(** What holds across any sequence of events. *)
Lemma run_step (evs : list dom_event) (w : World) :
  exists w',
    run evs w = (Return tt, w')
    /\ (synced w -> synced w')
    /\ (fresh w -> fresh w')
    /\ debug_grows w w'.
Proof.
  revert w. induction evs as [|ev evs IH]; intros w.
  - exists w. split; [reflexivity|].
    split; [auto|]. split; [auto|]. apply debug_grows_refl.
  - destruct (dispatch_step ev w) as (w1 & E1 & S1 & F1 & D1).
    destruct (IH w1) as (w' & E & S & F & D).
    exists w'. cbn [run]. unfold bind at 1. rewrite E1.
    split; [exact E|]. split; [auto|]. split; [auto|].
    eapply debug_grows_trans; eassumption.
Qed.

End RunFacts.

(** ** Insertion, typing, loading and whole sessions *)

Section SessionFacts.

Context `{Collaborators}.

Lemma insertMarkup_well_selected (prefix suffix : string)
    (ensureNewline : bool) (w : World) :
  well_selected w ->
  well_selected (exec (insertMarkup prefix suffix ensureNewline) w).
Proof.
  intros V. pose proof V as (H0 & H1 & H2).
  pose proof (caret_insertMarkup prefix suffix ensureNewline w) as (Cs & Ce).
  unfold well_selected, valid_selection.
  rewrite Cs, Ce, value_insertMarkup, len_newText, newPosition_eq.
  rewrite len_before, len_after, len_selectedText by (assumption || lia).
  pose proof (len_nonneg prefix). pose proof (len_nonneg suffix).
  pose proof (len_nonneg (prependNewline (value w) (selectionStart w)
                            prefix ensureNewline)).
  pose proof (len_nonneg (appendNewline prefix suffix ensureNewline)).
  lia.
Qed.

(** X12: across any sequence of events the debug flag stays as it was,
    the debug pane is only appended to (and a missing pane stays missing),
    and with the flag off the pane is not written at all. *)
Theorem X12_debug_pane_only_grows (evs : list dom_event) (w : World) :
  let w' := exec (run evs) w in
  debugMode w' = debugMode w
  /\ pane_extends (debugOutput w) (debugOutput w')
  /\ (debugMode w = false -> debugOutput w' = debugOutput w).
Proof.
  destruct (run_step evs w) as (w' & E & _ & _ & D).
  cbv zeta. unfold exec. rewrite E. exact D.
Qed.

(** X13: a toolbar click and a Ctrl shortcut keep the selection valid,
    whatever the action tag or the key: after a valid selection comes a
    valid selection. *)
Theorem X13_selection_stays_valid (w : World) (action : option string)
    (key : string) :
  well_selected w ->
  well_selected (exec (toolbar_click action) w)
  /\ well_selected (exec (shortcut key) w).
Proof.
  intros V. split.
  - destruct (toolbar_click_cases action) as [(p & s & ->)|[->|(l & ->)]].
    + now apply insertMarkup_well_selected.
    + exact V.
    + exact V.
  - destruct (shortcut_cases key) as [(p & s & ->)|[->|[->| ->]]].
    + now apply insertMarkup_well_selected.
    + exact V.
    + exact V.
    + exact V.
Qed.

End SessionFacts.

(** ** The export *)

Lemma export_run_app (hs hs' : list PdfExport.half) (v : PdfExport.View) :
  PdfExport.run (hs ++ hs') v = PdfExport.run hs' (PdfExport.run hs v).
Proof. unfold PdfExport.run. apply fold_left_app. Qed.

Lemma export_run_notifications (hs : list PdfExport.half)
    (v : PdfExport.View) :
  PdfExport.notifications (PdfExport.run hs v)
  = (PdfExport.notifications v ++ PdfExport.notices hs)%list.
Proof.
  revert v. induction hs as [|h hs IH]; intros v.
  - cbn. now rewrite app_nil_r.
  - change (PdfExport.run (h :: hs) v)
      with (PdfExport.run hs (PdfExport.run_half h v)).
    rewrite IH. destruct h as [|[[]|e]]; cbn.
    + reflexivity.
    + now rewrite <- app_assoc.
    + now rewrite <- app_assoc.
Qed.

Lemma export_run_indicator_missing (hs : list PdfExport.half)
    (v : PdfExport.View) :
  PdfExport.indicator v = None ->
  PdfExport.indicator (PdfExport.run hs v) = None.
Proof.
  revert v. induction hs as [|h hs IH]; intros v N; [exact N|].
  change (PdfExport.run (h :: hs) v)
    with (PdfExport.run hs (PdfExport.run_half h v)).
  apply IH. destruct h as [|[[]|e]]; cbn; now rewrite N.
Qed.

(** X14: exports are not serialised.  Whatever halves of whatever
    exports have run, when one export settles the indicator is hidden, also
    while others are still under way, and when one begins it is shown; every
    export that settles posts exactly one notification, the success message
    or the fixed text ["Failed to export PDF"], in the order of settling. *)
Theorem X14_export_indicator_and_notifications (hs : list PdfExport.half)
    (toPDF : outcome unit) (v : PdfExport.View) :
  PdfExport.indicator (PdfExport.run (hs ++ [PdfExport.Settle toPDF]) v)
  = option_map (fun _ => "none") (PdfExport.indicator v)
  /\ PdfExport.indicator (PdfExport.run (hs ++ [PdfExport.Begin]) v)
     = option_map (fun _ => "flex") (PdfExport.indicator v)
  /\ PdfExport.notifications (PdfExport.run hs v)
     = (PdfExport.notifications v ++ PdfExport.notices hs)%list.
Proof.
  split; [|split].
  - rewrite export_run_app.
    destruct (PdfExport.indicator v) as [d|] eqn:I.
    + assert (S : exists d', PdfExport.indicator (PdfExport.run hs v)
                             = Some d').
      { clear toPDF. revert v d I. induction hs as [|h hs IH]; intros v d I.
        - now exists d.
        - change (PdfExport.run (h :: hs) v)
            with (PdfExport.run hs (PdfExport.run_half h v)).
          destruct h as [|[[]|e]]; eapply IH; cbn; rewrite I; reflexivity. }
      destruct S as (d' & S). destruct toPDF as [[]|e]; cbn; now rewrite S.
    + pose proof (export_run_indicator_missing hs v I) as N.
      destruct toPDF as [[]|e]; cbn; now rewrite N.
  - rewrite export_run_app.
    destruct (PdfExport.indicator v) as [d|] eqn:I.
    + assert (S : exists d', PdfExport.indicator (PdfExport.run hs v)
                             = Some d').
      { revert v d I. induction hs as [|h hs IH]; intros v d I.
        - now exists d.
        - change (PdfExport.run (h :: hs) v)
            with (PdfExport.run hs (PdfExport.run_half h v)).
          destruct h as [|[[]|e]]; eapply IH; cbn; rewrite I; reflexivity. }
      destruct S as (d' & S). cbn. now rewrite S.
    + pose proof (export_run_indicator_missing hs v I) as N.
      cbn. now rewrite N.
  - apply export_run_notifications.
Qed.

(** ** The further properties on concrete pages *)

(** A heading, a list item and a quote end with the newline of their suffix
    and get no second one. *)
Lemma X2_witness :
  JS.endsWith (" sj" ++ appendNewline "jf " " sj" true) JS.nl = true
  /\ JS.nl ++ appendNewline "kl " JS.nl true = JS.nl.
Proof.
  split.
  - exact (proj1 (proj2 (X2_block_ends_with_newline "jf " " sj" true))
             eq_refl eq_refl).
  - exact (proj2 (proj2 (X2_block_ends_with_newline "kl " JS.nl true))
             eq_refl).
Defined.

(** A heading in mid-line: the prefix is at offset 3, after the newline
    that was put at offset 2. *)
Lemma X3_witness :
  well_selected (page "abcd" 2 2)
  /\ JS.slice (value (exec (@insertMarkup plain "jf " JS.nl true)
                        (page "abcd" 2 2))) 3 6 = "jf ".
Proof.
  assert (V : well_selected (page "abcd" 2 2))
    by (unfold well_selected, valid_selection; cbn; lia).
  split; [exact V|].
  exact (proj1 (@X3_block_prefix_starts_a_line plain (page "abcd" 2 2)
                  "jf " JS.nl V eq_refl)).
Defined.

(** Bold around ["el"] in ["hello"]: the selected text is at offsets 4 to 6
    of the new content. *)
Lemma X4_witness :
  well_selected (page "hello" 1 3)
  /\ JS.slice (value (exec (@insertMarkup plain "js " " sj" true)
                        (page "hello" 1 3))) 4 6 = "el".
Proof.
  assert (V : well_selected (page "hello" 1 3))
    by (unfold well_selected, valid_selection; cbn; lia).
  split; [exact V|].
  exact (proj1 (proj2 (@X4_old_text_is_kept plain (page "hello" 1 3)
                         "js " " sj" true V))).
Defined.



(** A second-level heading, or a quote by shortcut, around ["el"] in
    ["hello"]. *)
Lemma X13_witness :
  well_selected (page "hello" 1 3)
  /\ well_selected (exec (@toolbar_click plain (Some "h2")) (page "hello" 1 3))
  /\ well_selected (exec (@shortcut plain "q") (page "hello" 1 3)).
Proof.
  assert (V : well_selected (page "hello" 1 3))
    by (unfold well_selected, valid_selection; cbn; lia).
  split; [exact V|].
  exact (@X13_selection_stays_valid plain (page "hello" 1 3)
           (Some "h2") "q" V).
Defined.

(** ** Inline rules *)

Section InlineFacts.

Context `{Collaborators}.


End InlineFacts.


(** * The editor on a page: properties *)

(** ** The textarea *)

Lemma to_index_range (k : Z) : 0 <= Page.to_index k < 2 ^ 32.
Proof. unfold Page.to_index. apply Z.mod_pos_bound. lia. Qed.

Lemma to_index_small (k : Z) : 0 <= k < 2 ^ 32 -> Page.to_index k = k.
Proof. intros Hk. unfold Page.to_index. now apply Z.mod_small. Qed.

(** Whatever range is asked for, the range stored is inside the text. *)
Lemma clamp_valid (text : string) (s e : Z) :
  valid_selection text (fst (Page.clamp text s e)) (snd (Page.clamp text s e)).
Proof.
  unfold Page.clamp, valid_selection. cbn [fst snd].
  pose proof (to_index_range s). pose proof (to_index_range e).
  pose proof (len_nonneg text).
  destruct (Z.leb_spec (Z.min (Page.to_index e) (JS.len text))
              (Z.min (Page.to_index s) (JS.len text))); lia.
Qed.

(** A range inside the text is stored as it is. *)
Lemma clamp_inside (text : string) (s e : Z) :
  valid_selection text s e -> JS.len text < 2 ^ 32 ->
  Page.clamp text s e = (s, e).
Proof.
  intros (H0 & H1 & H2) Hn. unfold Page.clamp.
  rewrite !to_index_small by lia.
  rewrite !Z.min_l by lia.
  destruct (Z.leb_spec e s); [f_equal; lia | reflexivity].
Qed.


(** ** One render cycle *)

Section PageRender.

Context `{Page.Services}.

Lemma page_logDebug (msg : string) (d : option (list (string * string)))
    (b : Page.state) :
  exists b',
    Page.logDebug msg d b = (Page.Normal tt, b')
    /\ Page.same_document b b' /\ Page.preview b' = Page.preview b.
Proof.
  unfold Page.logDebug, Page.bind, Page.gets. cbn.
  destruct (Page.debugMode b) eqn:Hd; cbn.
  - destruct (Page.debugOutput b) eqn:Ho; cbn;
      eexists; (split; [reflexivity|]); unfold Page.same_document; cbn;
      rewrite ?Hd; repeat split.
  - eexists; split; [reflexivity|]. unfold Page.same_document.
    repeat split.
Qed.

(** A render cycle touches nothing but the preview, the console and the
    debug pane.  When the [try] block returns, or throws a value that has a
    message or none, the cycle returns and the preview shows the render
    result; when the block throws [null] or [undefined], the cycle throws
    the [TypeError] of the [catch] clause. *)
Lemma page_updatePreview (b : Page.state) :
  exists c b',
    Page.updatePreview b = (c, b')
    /\ Page.same_document b b'
    /\ match Page.renderResult (Page.value b) with
       | Some r => c = Page.Normal tt /\ Page.preview b' = display r
       | None =>
           exists t,
             Page.nullish t = true
             /\ Page.tried (Page.value b) = Page.Abrupt t
             /\ c = Page.Abrupt (Page.TypeError t)
       end.
Proof.
  unfold Page.updatePreview, Page.try_catch, Page.bind, Page.gets, Page.call,
    Page.modify, Page.console_error, Page.read_message, Page.throw, Page.ret,
    Page.renderResult, Page.tried.
  cbn -[Page.logDebug].
  destruct (Page.sanitizeInput (Page.value b)) as [input|t]; cbn -[Page.logDebug];
    [destruct (Page.parseToHtml input) as [html|t]; cbn -[Page.logDebug];
     [destruct Page.highlightAll as [[]|t]; cbn -[Page.logDebug]|]|].
  2-4: destruct t as [| |e|]; cbn -[Page.logDebug].
  all: try match goal with
           | |- context [Page.logDebug ?m ?d ?x] =>
               destruct (page_logDebug m d x) as (b' & -> & D & P)
           end.
  all: do 2 eexists; (split; [reflexivity|]).
  all: unfold Page.same_document in *; cbn in *.
  all: split; [intuition congruence|].
  all: try (split; [reflexivity | congruence]).
  all: eexists; repeat split; reflexivity.
Qed.

(** C7, on the code: when the transform throws [null] or [undefined],
    the [catch] clause logs it and then reads [error.message] off it, which
    throws a [TypeError]; the render cycle throws that [TypeError] instead of
    returning, and the preview keeps what it showed before instead of an
    error block.  The claim has every failure end in a [Failed] result and
    nothing thrown. *)
Theorem C7_thrown_null_escapes (b : Page.state) (input : string)
    (t : Page.thrown) :
  Page.sanitizeInput (Page.value b) = Page.Normal input ->
  Page.parseToHtml input = Page.Abrupt t ->
  Page.nullish t = true ->
  exists b',
    Page.updatePreview b = (Page.Abrupt (Page.TypeError t), b')
    /\ Page.preview b' = Page.preview b
    /\ Page.console b'
       = (Page.console b ++ [Page.Error "Parser error:" t])%list.
Proof.
  intros Hs Hp Hn.
  unfold Page.updatePreview, Page.try_catch, Page.bind, Page.gets, Page.call,
    Page.modify, Page.console_error, Page.read_message, Page.throw.
  cbn -[Page.logDebug]. rewrite Hs. cbn -[Page.logDebug]. rewrite Hp.
  destruct t; try discriminate Hn; cbn; eexists; repeat split.
Qed.

End PageRender.

(** ** One insertion *)

Section PageInsert.

Context `{Page.Services}.

(** Assigning the textarea's value leaves a selection inside the text. *)
Lemma page_set_value (v : string) (b : Page.state) :
  let b1 := Page.exec (Page.set_value v) b in
  Page.value b1 = v
  /\ (Page.well_selected b -> Page.well_selected b1)
  /\ (Page.value b <> v ->
      Page.selectionStart b1 = JS.len v /\ Page.selectionEnd b1 = JS.len v)
  /\ Page.focused b1 = Page.focused b
  /\ Page.preview b1 = Page.preview b
  /\ Page.savedContent b1 = Page.savedContent b
  /\ Page.wordCountOf b1 = Page.wordCountOf b
  /\ Page.uncaught b1 = Page.uncaught b.
Proof.
  unfold Page.exec, Page.set_value, Page.modify. cbn [snd].
  destruct (String.eqb_spec (Page.value b) v) as [E|N]; cbn.
  - split; [exact E|]. split; [tauto|]. split; [tauto|]. repeat split.
  - split; [reflexivity|]. split.
    + intros _. unfold Page.well_selected, valid_selection. cbn.
      pose proof (len_nonneg v). lia.
    + split; [intros _; split; reflexivity|]. repeat split.
Qed.

(** An insertion, with everything it does: the new text is put into the
    textarea and into the store before the render cycle starts, so both hold
    it however the cycle ends; the caret and the focus are set only when the
    cycle returns. *)
Lemma page_insertMarkup (prefix suffix : string) (ensureNewline : bool)
    (b : Page.state) :
  let new :=
    newText (Page.value b) (Page.selectionStart b) (Page.selectionEnd b)
      prefix suffix ensureNewline in
  let position :=
    newPosition (Page.value b) (Page.selectionStart b) (Page.selectionEnd b)
      prefix suffix ensureNewline in
  exists c b',
    Page.insertMarkup prefix suffix ensureNewline b = (c, b')
    /\ Page.value b' = new
    /\ Page.savedContent b' = Some new
    /\ Page.wordCountOf b' = Page.wordCountOf b
    /\ Page.uncaught b' = Page.uncaught b
    /\ (Page.well_selected b -> Page.well_selected b')
    /\ match Page.renderResult new with
       | Some r =>
           c = Page.Normal tt /\ Page.preview b' = display r
           /\ Page.focused b' = true
           /\ Page.selectionStart b' = fst (Page.clamp new position position)
           /\ Page.selectionEnd b' = snd (Page.clamp new position position)
       | None =>
           (exists t,
              Page.nullish t = true /\ Page.tried new = Page.Abrupt t
              /\ c = Page.Abrupt (Page.TypeError t))
           /\ Page.focused b' = Page.focused b
       end.
Proof.
  intros new position.
  pose proof (page_set_value new b) as S. cbv zeta in S.
  destruct S as (Sv & Sw & _ & Sf & _ & _ & Swc & Su).
  unfold Page.insertMarkup.
  unfold Page.bind at 1 2 3. unfold Page.gets. cbn [fst snd].
  fold new position.
  unfold Page.bind at 1. unfold Page.exec in *.
  destruct (Page.set_value new b) as [[[]|t0] b1] eqn:E1;
    [|unfold Page.set_value, Page.modify in E1; discriminate E1].
  cbn [snd] in *.
  unfold Page.bind at 1. unfold Page.saveContent, Page.modify at 1.
  unfold Page.bind at 1.
  destruct (page_updatePreview (Page.with_savedContent (Some new) b1))
    as (c & b2 & E2 & D & R).
  rewrite E2. unfold Page.same_document in D. cbn in D, R.
  destruct D as (Dv & Ds & De & Df & Dsv & Dw & _ & _ & Du).
  rewrite Sv in R.
  destruct (Page.renderResult new) as [r|] eqn:RR.
  - destruct R as (-> & P).
    unfold Page.bind, Page.setSelectionRange, Page.focus, Page.modify. cbn.
    do 2 eexists. split; [reflexivity|]. cbn.
    rewrite Dv, Sv.
    split; [reflexivity|]. split; [congruence|]. split; [congruence|].
    split; [congruence|]. split.
    + intros _. unfold Page.well_selected. cbn. rewrite ?Dv, ?Sv.
      apply clamp_valid.
    + repeat split; congruence.
  - destruct R as (t & Hn & Ht & ->).
    do 2 eexists. split; [reflexivity|].
    split; [congruence|]. split; [congruence|]. split; [congruence|].
    split; [congruence|]. split.
    + intros W. specialize (Sw W). unfold Page.well_selected in *.
      rewrite Dv, Ds, De. exact Sw.
    + split; [now exists t | congruence].
Qed.


End PageInsert.

(** ** Insertion, typing, loading and whole sessions on a page *)

Section PageSession.

Context `{Page.Services}.

(** For a valid selection the computed caret lies inside the new text. *)
Lemma newPosition_inside (text : string) (start end_ : Z)
    (prefix suffix : string) (ensureNewline : bool) :
  valid_selection text start end_ ->
  let new := newText text start end_ prefix suffix ensureNewline in
  let position := newPosition text start end_ prefix suffix ensureNewline in
  valid_selection new position position.
Proof.
  intros V new position. pose proof V as (H0 & H1 & H2).
  unfold valid_selection. subst new position.
  rewrite len_newText, newPosition_eq.
  rewrite len_before, len_after, len_selectedText by (assumption || lia).
  pose proof (len_nonneg prefix). pose proof (len_nonneg suffix).
  pose proof (len_nonneg (prependNewline text start prefix ensureNewline)).
  pose proof (len_nonneg (appendNewline prefix suffix ensureNewline)).
  lia.
Qed.


(** An input event, with everything it does. *)
Lemma page_typed (b : Page.state) (typed : string) (caret : Z) :
  exists c b',
    Page.dispatch (Page.Typed typed caret) b = (c, b')
    /\ Page.value b' = typed
    /\ Page.savedContent b' = Some typed
    /\ Page.wordCountOf b' = Some typed
    /\ Page.well_selected b'
    /\ Page.uncaught b' = Page.uncaught b
    /\ ((c = Page.Normal tt /\ Page.fresh b')
        \/ (exists t,
              Page.nullish t = true /\ Page.tried typed = Page.Abrupt t
              /\ c = Page.Abrupt (Page.TypeError t))).
Proof.
  unfold Page.dispatch, Page.on_content_changed, Page.bind, Page.modify,
    Page.gets, Page.saveContent, Page.updateWordCount.
  cbn -[Page.updatePreview Page.clamp].
  match goal with
  | |- context [Page.updatePreview ?x] =>
      destruct (page_updatePreview x) as (c & b' & -> & D & R)
  end.
  unfold Page.same_document in D. cbn -[Page.clamp] in D, R.
  destruct D as (Dv & Ds & De & _ & Dsv & Dw & _ & _ & Du).
  exists c, b'. split; [reflexivity|]. split; [exact Dv|].
  split; [exact Dsv|]. split; [exact Dw|]. split; [|split; [exact Du|]].
  - unfold Page.well_selected. rewrite Dv, Ds, De. apply clamp_valid.
  - destruct (Page.renderResult typed) as [r|] eqn:RR.
    + left. destruct R as (-> & P). split; [reflexivity|].
      exists r. rewrite Dv. split; assumption.
    + right. exact R.
Qed.



End PageSession.

(** ** What every listener keeps, also when it throws *)

Section PageRun.

Context `{Page.Services}.

Lemma page_toolbar_click_cases (action : option string) :
  (exists prefix suffix,
     Page.toolbar_click action = Page.insertMarkup prefix suffix true)
  \/ Page.toolbar_click action = Page.exportToPDF
  \/ (exists line, Page.toolbar_click action = Page.console_warn line).
Proof.
  destruct action as [a|]; [|right; right; eexists; reflexivity].
  unfold Page.toolbar_click.
  repeat match goal with
         | |- context [if String.eqb a ?k then _ else _] =>
             destruct (String.eqb a k);
             [first [ left; do 2 eexists; reflexivity
                    | right; left; reflexivity ]|]
         end.
  right; right; eexists; reflexivity.
Qed.

Lemma page_shortcut_cases (key : string) :
  (exists prefix suffix,
     Page.shortcut key = Page.insertMarkup prefix suffix true)
  \/ Page.shortcut key
     = Page.bind (Page.gets Page.value) (fun text => Page.saveContent text)
  \/ Page.shortcut key = Page.exportToPDF
  \/ Page.shortcut key = Page.ret tt.
Proof.
  unfold Page.shortcut.
  repeat match goal with
         | |- context [if String.eqb key ?k then _ else _] =>
             destruct (String.eqb key k);
             [first [ left; do 2 eexists; reflexivity
                    | right; left; reflexivity
                    | right; right; left; reflexivity ]|]
         end.
  right; right; right; reflexivity.
Qed.

(** What holds across one listener, whatever the event and however the
    listener ends. *)
Lemma page_dispatch (ev : Page.dom_event) (b : Page.state) :
  exists c b',
    Page.dispatch ev b = (c, b')
    /\ (Page.synced b -> Page.synced b')
    /\ (Page.well_selected b -> Page.well_selected b')
    /\ Page.uncaught b' = Page.uncaught b
    /\ ((forall text, Page.renderResult text <> None) ->
        c = Page.Normal tt /\ (Page.fresh b -> Page.fresh b')).
Proof.
  assert (Ins : forall prefix suffix,
             exists c b',
               Page.insertMarkup prefix suffix true b = (c, b')
               /\ (Page.synced b -> Page.synced b')
               /\ (Page.well_selected b -> Page.well_selected b')
               /\ Page.uncaught b' = Page.uncaught b
               /\ ((forall text, Page.renderResult text <> None) ->
                   c = Page.Normal tt /\ (Page.fresh b -> Page.fresh b'))).
  { intros prefix suffix.
    destruct (page_insertMarkup prefix suffix true b)
      as (c & b' & E & V & S & _ & U & W & R).
    exists c, b'. split; [exact E|].
    split; [intros _; unfold Page.synced; congruence|].
    split; [exact W|]. split; [exact U|].
    intros Polite.
    destruct (Page.renderResult _) as [r|] eqn:RR;
      [|now elim (Polite _ RR)].
    destruct R as (-> & P & _). split; [reflexivity|].
    intros _. exists r. rewrite V. split; assumption. }
  assert (Sav : exists c b',
             Page.bind (Page.gets Page.value)
               (fun text => Page.saveContent text) b = (c, b')
             /\ (Page.synced b -> Page.synced b')
             /\ (Page.well_selected b -> Page.well_selected b')
             /\ Page.uncaught b' = Page.uncaught b
             /\ ((forall text, Page.renderResult text <> None) ->
                 c = Page.Normal tt /\ (Page.fresh b -> Page.fresh b'))).
  { do 2 eexists. split; [reflexivity|]. cbn.
    split; [intros _; reflexivity|]. split; [auto|]. split; [reflexivity|].
    intros _. split; [reflexivity | auto]. }
  assert (Exp : exists c b',
             Page.exportToPDF b = (c, b')
             /\ (Page.synced b -> Page.synced b')
             /\ (Page.well_selected b -> Page.well_selected b')
             /\ Page.uncaught b' = Page.uncaught b
             /\ ((forall text, Page.renderResult text <> None) ->
                 c = Page.Normal tt /\ (Page.fresh b -> Page.fresh b'))).
  { do 2 eexists. split; [reflexivity|]. cbn.
    split; [auto|]. split; [auto|]. split; [reflexivity|].
    intros _. split; [reflexivity | auto]. }
  destruct ev as [typed caret|s e| |action|key| |ms].
  - destruct (page_typed b typed caret)
      as (c & b' & E & V & S & _ & W & U & R).
    exists c, b'. split; [exact E|].
    split; [intros _; unfold Page.synced; congruence|].
    split; [intros _; exact W|]. split; [exact U|].
    intros Polite. destruct R as [(-> & F)|(t & Hn & Ht & _)].
    + split; [reflexivity | auto].
    + exfalso. apply (Polite typed). unfold Page.renderResult.
      rewrite Ht. destruct t; try discriminate Hn; reflexivity.
  - do 2 eexists. split; [reflexivity|]. cbn -[Page.clamp].
    split; [auto|].
    split; [intros _; unfold Page.well_selected; cbn -[Page.clamp];
            apply clamp_valid|].
    split; [reflexivity|]. intros _. split; [reflexivity | auto].
  - exact Sav.
  - cbn [Page.dispatch].
    destruct (page_toolbar_click_cases action)
      as [(p & s & ->)|[->|(l & ->)]].
    + apply Ins.
    + exact Exp.
    + do 2 eexists. split; [reflexivity|]. cbn.
      split; [auto|]. split; [auto|]. split; [reflexivity|].
      intros _. split; [reflexivity | auto].
  - cbn [Page.dispatch].
    destruct (page_shortcut_cases key) as [(p & s & ->)|[->|[->| ->]]].
    + apply Ins.
    + exact Sav.
    + exact Exp.
    + exists (Page.Normal tt), b. split; [reflexivity|].
      split; [auto|]. split; [auto|]. split; [reflexivity|].
      intros _. split; [reflexivity | auto].
  - exact Sav.
  - exists (Page.Normal tt), b. split; [reflexivity|].
    split; [auto|]. split; [auto|]. split; [reflexivity|].
    intros _. split; [reflexivity | auto].
Qed.

(** What holds across one event, the report of an escaped exception
    included. *)
Lemma page_handle (ev : Page.dom_event) (b : Page.state) :
  (Page.synced b -> Page.synced (Page.handle ev b))
  /\ (Page.well_selected b -> Page.well_selected (Page.handle ev b))
  /\ ((forall text, Page.renderResult text <> None) ->
      Page.uncaught (Page.handle ev b) = Page.uncaught b
      /\ (Page.fresh b -> Page.fresh (Page.handle ev b))).
Proof.
  destruct (page_dispatch ev b) as (c & b' & E & S & W & U & P).
  unfold Page.handle. rewrite E.
  destruct c as [[]|t].
  - split; [exact S|]. split; [exact W|].
    intros Polite. destruct (P Polite) as (_ & F). split; assumption.
  - split; [exact S|]. split; [exact W|].
    intros Polite. destruct (P Polite) as (N & _). discriminate N.
Qed.

Lemma page_run (evs : list Page.dom_event) (b : Page.state) :
  (Page.synced b -> Page.synced (Page.run evs b))
  /\ (Page.well_selected b -> Page.well_selected (Page.run evs b))
  /\ ((forall text, Page.renderResult text <> None) ->
      Page.uncaught (Page.run evs b) = Page.uncaught b
      /\ (Page.fresh b -> Page.fresh (Page.run evs b))).
Proof.
  revert b. induction evs as [|ev evs IH]; intros b.
  - cbn. split; [auto|]. split; [auto|]. intros _.
    split; [reflexivity | auto].
  - change (Page.run (ev :: evs) b) with (Page.run evs (Page.handle ev b)).
    destruct (page_handle ev b) as (S1 & W1 & P1).
    destruct (IH (Page.handle ev b)) as (S & W & P).
    split; [auto|]. split; [auto|].
    intros Polite. destruct (P1 Polite) as (U1 & F1).
    destruct (P Polite) as (U & F).
    split; [congruence | auto].
Qed.

(** X10: across any sequence of edits, selections, blurs, toolbar
    clicks, shortcuts, unloads and waits, whatever the collaborators return
    or throw and whichever listeners end in an exception: if the store held
    the text of the textarea it still does, and if the selection lay inside
    the text it still does. *)
Theorem X10_store_and_selection_follow_the_text (evs : list Page.dom_event)
    (b : Page.state) :
  (Page.savedContent b = Some (Page.value b) ->
   Page.savedContent (Page.run evs b) = Some (Page.value (Page.run evs b)))
  /\ (Page.well_selected b -> Page.well_selected (Page.run evs b)).
Proof.
  destruct (page_run evs b) as (S & W & _). split; assumption.
Qed.


End PageRun.

(** ** The page on concrete inputs *)

Example clamp_inverted : Page.clamp "abc" 2 1 = (1, 1).
Proof. reflexivity. Qed.

Example clamp_beyond : Page.clamp ("ab" ++ JS.nl) 7 7 = (3, 3).
Proof. reflexivity. Qed.

Example clamp_negative : Page.clamp "abc" (-1) 2 = (2, 2).
Proof. reflexivity. Qed.

Example clamp_inside_text : Page.clamp "hello" 1 3 = (1, 3).
Proof. reflexivity. Qed.

Example preview_after_a_parse_error :
  Page.preview
    (Page.exec (@Page.updatePreview Page.rejecting)
       (Page.blank "jf title" 0 0))
  = "<pre class=" ++ JS.dq ++ "error" ++ JS.dq
    ++ ">Error: unexpected token</pre>".
Proof. reflexivity. Qed.

Example preview_after_a_render :
  Page.preview
    (Page.exec (@Page.updatePreview Page.plain) (Page.blank "jf title" 0 0))
  = "<p>jf title</p>".
Proof. reflexivity. Qed.

Example insert_with_a_null_throw :
  let b' :=
    Page.exec (@Page.insertMarkup Page.throwing_null "js " " sj" true)
      (Page.blank "hello" 1 3) in
  Page.value b' = "hjs el sjlo"
  /\ (Page.selectionStart b', Page.selectionEnd b') = (11, 11)
  /\ Page.focused b' = false.
Proof. repeat split. Qed.

Example insert_on_a_page :
  let b' :=
    Page.exec (@Page.insertMarkup Page.plain "js " " sj" true)
      (Page.blank "hello" 1 3) in
  Page.value b' = "hjs el sjlo"
  /\ (Page.selectionStart b', Page.selectionEnd b') = (9, 9)
  /\ Page.focused b' = true
  /\ Page.preview b' = "<p>hjs el sjlo</p>".
Proof. repeat split. Qed.

(** A transform that throws [null], on a page that shows an older render:
    the render cycle throws and the older render stays. *)
Lemma C7_witness :
  let b :=
    Page.mkState "jf title" 0 0 false "<p>old</p>" None [] None None false 0
      [] in
  exists b',
    @Page.updatePreview Page.throwing_null b
    = (Page.Abrupt (Page.TypeError Page.Null), b')
    /\ Page.preview b' = "<p>old</p>".
Proof.
  destruct (@C7_thrown_null_escapes Page.throwing_null
              (Page.mkState "jf title" 0 0 false "<p>old</p>" None [] None
                 None false 0 [])
              "jf title" Page.Null eq_refl eq_refl eq_refl)
    as (b' & E & P & _).
  exists b'. split; assumption.
Defined.


(** Typing, a bold click and a blur with a transform that throws [null]:
    every render cycle throws, and the store ends with the text of the
    textarea, the selection inside it. *)
Lemma X10_witness :
  let b :=
    Page.mkState "hi" 2 2 false "" None [] (Some "hi") None false 0 [] in
  let b' :=
    @Page.run Page.throwing_null
      [Page.Typed "hello" 5; Page.Click (Some "bold"); Page.Blur] b in
  Page.savedContent b' = Some (Page.value b') /\ Page.well_selected b'.
Proof.
  assert (W : Page.well_selected
                (Page.mkState "hi" 2 2 false "" None [] (Some "hi") None
                   false 0 []))
    by (unfold Page.well_selected, valid_selection; cbn; lia).
  destruct (@X10_store_and_selection_follow_the_text Page.throwing_null
              [Page.Typed "hello" 5; Page.Click (Some "bold"); Page.Blur]
              (Page.mkState "hi" 2 2 false "" None [] (Some "hi") None
                 false 0 []))
    as (S & Ws).
  split; [exact (S eq_refl) | exact (Ws W)].
Defined.


(** ** The two parts agree

    With collaborators that throw objects with a message, on a valid
    selection and a text shorter than 2^32, an insertion on the page leaves
    what the insertion of the first part leaves: the facts proved there about
    the text, the caret, the store and the preview hold on the page. *)

Lemma renderResult_as_services (H : Collaborators) (text : string) :
  @Page.renderResult (as_services H) text = Some (@renderResult H text).
Proof.
  unfold Page.renderResult, Page.tried, renderResult. cbn.
  destruct (sanitizeInput text) as [input|e1]; cbn; [|reflexivity].
  destruct (parseToHtml input) as [html|e2]; cbn; [|reflexivity].
  destruct highlightAll as [[]|e3]; reflexivity.
Qed.

Lemma insertMarkup_on_the_page (H : Collaborators) (w : World)
    (b : Page.state) (prefix suffix : string) (ensureNewline : bool) :
  Page.value b = value w ->
  Page.selectionStart b = selectionStart w ->
  Page.selectionEnd b = selectionEnd w ->
  well_selected w ->
  JS.len (newText (value w) (selectionStart w) (selectionEnd w)
            prefix suffix ensureNewline) < 2 ^ 32 ->
  let w' := exec (insertMarkup prefix suffix ensureNewline) w in
  exists b',
    @Page.insertMarkup (as_services H) prefix suffix ensureNewline b
    = (Page.Normal tt, b')
    /\ Page.value b' = value w'
    /\ Page.selectionStart b' = selectionStart w'
    /\ Page.selectionEnd b' = selectionEnd w'
    /\ Page.savedContent b' = savedContent w'
    /\ Page.preview b' = preview w'
    /\ Page.focused b' = focused w'.
Proof.
  intros Ev Es Ee V Hn w'.
  destruct (insertMarkup_step prefix suffix ensureNewline w)
    as (w1 & E1 & I & _ & F & _).
  assert (Ew : w' = w1) by (subst w'; unfold exec; now rewrite E1).
  rewrite Ew. clear Ew w'.
  unfold inserted in I. cbv zeta in I.
  destruct I as (Iv & Is & Ie & If & Isv & _).
  unfold fresh in F. rewrite Iv in F.
  destruct (@page_insertMarkup (as_services H) prefix suffix ensureNewline b)
    as (c & b' & E & Pv & Ps & _ & _ & _ & R).
  cbv zeta in Pv, Ps, R. rewrite Ev, Es, Ee in Pv, Ps, R.
  rewrite renderResult_as_services in R.
  destruct R as (-> & Pp & Pf & Pcs & Pce).
  rewrite (clamp_inside _ _ _ (newPosition_inside _ _ _ prefix suffix
                                 ensureNewline V) Hn) in Pcs, Pce.
  exists b'. split; [exact E|].
  cbn [fst snd] in Pcs, Pce.
  repeat split; congruence.
Qed.
